(** * URL shortener: the mapping store, the validator, the code generator
      and the two services built on them.

    The development follows the three source modules of [url-shortener/app]:
    - [Models]  embeds [models.py]  (class [URLStore]);
    - [Utils]   embeds [utils.py]   (validation, code generation, formatting);
    - [Main]    embeds [main.py]    (the [/api/shorten], [/<short_code>] and
                                     [/api/stats/<short_code>] handlers).

    Python values are modelled as follows.
    - A [str] is a [string]; a character is a code point below 256.
    - An [int] is a [Z]; the argument of [range] is a [nat] (a range over a
      non-positive integer is empty, like a range over [0]).
    - Every [dict] that holds a URL record is a heap object: [dicts] maps an
      object identity to the current contents of the dict, and the table
      [_urls] of the store maps a short code to the identity of its record,
      as [Dict[str, Dict]] does.  Two names for one identity are aliases.
    - An exception is a value of [Exn], returned on the left of a sum.
    - [datetime.now()] and [random.choice] are inputs: the time stamp is an
      argument, the random source is a tape of draws with a cursor. *)

From Stdlib Require Import ZArith String Ascii List Lia Bool.
From stdpp Require Import gmap strings list fin_maps pretty.

Local Open Scope Z_scope.
Local Open Scope string_scope.

(** ** Python exceptions raised by the code *)

Inductive Exn :=
| ValueError (msg : string)
| RuntimeError (msg : string)
| KeyError (key : string)
| TypeError
| AttributeError
| BadRequest.

(** ** Python [str] methods used by the code *)

Module Str.

(** [s.lstrip(chars)], with the set of characters given as a predicate. *)
Fixpoint lstrip_by (p : ascii -> bool) (s : string) : string :=
  match s with
  | EmptyString => EmptyString
  | String c s' => if p c then lstrip_by p s' else s
  end.

(** [s.rstrip(chars)]. *)
Fixpoint rstrip_by (p : ascii -> bool) (s : string) : string :=
  match s with
  | EmptyString => EmptyString
  | String c s' =>
      match rstrip_by p s' with
      | EmptyString => if p c then EmptyString else String c EmptyString
      | t => String c t
      end
  end.

(** [c.isspace()] for a code point below 256: the characters that
    [str.strip()] removes when it is called without an argument. *)
Definition isspace (c : ascii) : bool :=
  let n := nat_of_ascii c in
  ((9 <=? n) && (n <=? 13) || (28 <=? n) && (n <=? 32)
   || (n =? 133) || (n =? 160))%nat.

(** [s.strip()] *)
Definition strip (s : string) : string := rstrip_by isspace (lstrip_by isspace s).

(** [s.replace(c, "")] for every [c] that satisfies [p]. *)
Fixpoint remove_chars (p : ascii -> bool) (s : string) : string :=
  match s with
  | EmptyString => EmptyString
  | String c s' => if p c then remove_chars p s' else String c (remove_chars p s')
  end.

(** [s.find(c)]: the index of the first [c], [None] for Python's [-1]. *)
Fixpoint find (c : ascii) (s : string) : option nat :=
  match s with
  | EmptyString => None
  | String a s' => if Ascii.eqb a c then Some 0%nat else S <$> find c s'
  end.

(** [c in s] *)
Fixpoint contains (c : ascii) (s : string) : bool :=
  match s with
  | EmptyString => false
  | String a s' => Ascii.eqb a c || contains c s'
  end.

(** [all(p(c) for c in s)] *)
Fixpoint all (p : ascii -> bool) (s : string) : bool :=
  match s with
  | EmptyString => true
  | String a s' => p a && all p s'
  end.

(** [s[:n]] and [s[n:]] for [n >= 0]. *)
Fixpoint take (n : nat) (s : string) : string :=
  match n, s with
  | S n', String c s' => String c (take n' s')
  | _, _ => EmptyString
  end.

Fixpoint drop (n : nat) (s : string) : string :=
  match n, s with
  | S n', String _ s' => drop n' s'
  | _, _ => s
  end.

(** The longest prefix of [s] without a character that satisfies [p]. *)
Fixpoint take_until (p : ascii -> bool) (s : string) : string :=
  match s with
  | EmptyString => EmptyString
  | String c s' => if p c then EmptyString else String c (take_until p s')
  end.

(** [s.partition(c)]: the text before the first [c], and the text after
    it when [s] has one. *)
Fixpoint partition (c : ascii) (s : string) : string * option string :=
  match s with
  | EmptyString => (EmptyString, None)
  | String a s' =>
      if Ascii.eqb a c then (EmptyString, Some s')
      else let '(before, after) := partition c s' in (String a before, after)
  end.

(** [s.rpartition(c)[2]]: the text after the last [c], all of [s] when it
    has none. *)
Fixpoint rpartition_tail (c : ascii) (s : string) : string :=
  match s with
  | EmptyString => EmptyString
  | String a s' =>
      if contains c s' then rpartition_tail c s'
      else if Ascii.eqb a c then s' else s
  end.

(** [s.split(c)] *)
Fixpoint split (c : ascii) (s : string) : list string :=
  match s with
  | EmptyString => [EmptyString]
  | String a s' =>
      if Ascii.eqb a c then EmptyString :: split c s'
      else
        match split c s' with
        | part :: parts => String a part :: parts
        | [] => [String a EmptyString]
        end
  end.

(** [sub in s] for a string [sub]. *)
Fixpoint contains_str (sub s : string) : bool :=
  String.prefix sub s
  || match s with
     | EmptyString => false
     | String _ s' => contains_str sub s'
     end.

End Str.

(** ** models.py *)

Module Models.

(** The dict built by [create_url_mapping]: its four keys. *)
Record UrlData := mkUrlData {
  original_url : string;
  short_code : string;
  clicks : Z;
  created_at : string
}.

(** The dict returned by [get_stats]. *)
Record Stats := mkStats {
  stats_url : string;
  stats_clicks : Z;
  stats_created_at : string
}.

(** The state the store works on: the dict objects alive in the process
    and the table [self._urls] of the global [url_store].  [self._lock]
    is held for the whole body of every method; a method is one step of
    the sequential model (the lock itself is modelled in [Threads]). *)
Record World := mkWorld {
  dicts : gmap positive UrlData;
  _urls : gmap string positive
}.

(** [URLStore()] in a process without any record yet. *)
Definition empty_world : World := mkWorld ∅ ∅.

(** A new dict object: its identity differs from every live one. *)
Definition new_dict (d : UrlData) (h : gmap positive UrlData)
  : positive * gmap positive UrlData :=
  let l := fresh (dom h) in (l, <[l := d]> h).

Definition already_exists (short_code : string) : string :=
  "Short code '" +:+ short_code +:+ "' already exists".

(** [create_url_mapping]: the result is the identity of [url_data.copy()],
    a second dict with the same contents as the one kept in the table. *)
Definition create_url_mapping (w : World) (short_code original_url now : string)
  : (Exn + positive) * World :=
  match _urls w !! short_code with
  | Some _ => (inl (ValueError (already_exists short_code)), w)
  | None =>
      let url_data := mkUrlData original_url short_code 0 now in
      let '(l, h1) := new_dict url_data (dicts w) in
      let urls1 := <[short_code := l]> (_urls w) in
      let '(l', h2) := new_dict url_data h1 in
      (inr l', mkWorld h2 urls1)
  end.

(** [get_url_mapping]: [self._urls.get(short_code)], the dict object
    that the table holds, or [None]. *)
Definition get_url_mapping (w : World) (short_code : string) : option positive :=
  _urls w !! short_code.

Definition add_click (d : UrlData) : UrlData :=
  mkUrlData (original_url d) (short_code d) (clicks d + 1) (created_at d).

(** [increment_clicks] *)
Definition increment_clicks (w : World) (short_code : string) : bool * World :=
  match _urls w !! short_code with
  | Some l => (true, mkWorld (alter add_click l (dicts w)) (_urls w))
  | None => (false, w)
  end.

(** [get_stats]: a dict of its own, built from the three fields. *)
Definition get_stats (w : World) (short_code : string) : option Stats :=
  match _urls w !! short_code with
  | Some l =>
      match dicts w !! l with
      | Some url_data =>
          Some (mkStats (original_url url_data) (clicks url_data) (created_at url_data))
      | None => None
      end
  | None => None
  end.

(** [url_exists] *)
Definition url_exists (w : World) (short_code : string) : bool :=
  bool_decide (is_Some (_urls w !! short_code)).

(** What a holder of a dict can do with it: read it, and assign a key. *)
Definition read_dict (w : World) (l : positive) : option UrlData := dicts w !! l.

Definition set_clicks (v : Z) (d : UrlData) : UrlData :=
  mkUrlData (original_url d) (short_code d) v (created_at d).

(** [d['clicks'] = v] on the dict object [l]. *)
Definition setitem_clicks (w : World) (l : positive) (v : Z) : World :=
  mkWorld (alter (set_clicks v) l (dicts w)) (_urls w).

(** The record the store holds for a code. *)
Definition record_of (w : World) (short_code : string) : option UrlData :=
  _urls w !! short_code ≫= λ l, dicts w !! l.

(** Every entry of the table points to a live dict that carries its own
    key: what [create_url_mapping] establishes for each entry. *)
Definition well_formed (w : World) : Prop :=
  ∀ code l, _urls w !! code = Some l →
    ∃ d, dicts w !! l = Some d ∧ short_code d = code.

End Models.

(** ** ipaddress, the part [urlsplit] reads for a bracketed host *)

Module IpAddress.

Definition ascii_digit (c : ascii) : bool :=
  let n := nat_of_ascii c in ((48 <=? n) && (n <=? 57))%nat.

(** [_HEX_DIGITS] *)
Definition hex_digit (c : ascii) : bool :=
  let n := nat_of_ascii c in
  ((48 <=? n) && (n <=? 57) || (65 <=? n) && (n <=? 70)
   || (97 <=? n) && (n <=? 102))%nat.

(** [int(s, 10)] of a string of ASCII digits. *)
Definition int10 (s : string) : N :=
  fold_left (fun acc c => (10 * acc + (N_of_ascii c - 48))%N)
            (list_ascii_of_string s) 0%N.

(** [IPv4Address._parse_octet] returns: the octet is not empty, has
    digits only, at most three of them, no leading zero, and is at most
    255. *)
Definition parse_octet (octet_str : string) : bool :=
  if octet_str =? "" then false
  else if negb (Str.all ascii_digit octet_str) then false
  else if (3 <? String.length octet_str)%nat then false
  else if negb (octet_str =? "0") && String.prefix "0" octet_str then false
  else (int10 octet_str <=? 255)%N.

(** [IPv4Address(address)] returns for a string. *)
Definition IPv4Address (address : string) : bool :=
  negb (Str.contains "/" address)
  && negb (address =? "")
  && let octets := Str.split "." address in
     (length octets =? 4)%nat && forallb parse_octet octets.

(** [IPv6Address._parse_hextet] returns. *)
Definition parse_hextet (hextet_str : string) : bool :=
  Str.all hex_digit hextet_str
  && (String.length hextet_str <=? 4)%nat
  && negb (hextet_str =? "").

(** The indices [i] of [range(1, len(parts) - 1)] with an empty
    [parts[i]]. *)
Definition empty_inner (parts : list string) : list nat :=
  filter (fun i => bool_decide (parts !! i = Some ""))
         (seq 1 (length parts - 2)).

(** [IPv6Address._ip_int_from_string] returns. *)
Definition ip_int_from_string (ip_str : string) : bool :=
  negb (ip_str =? "")
  && let parts := Str.split ":" ip_str in
     (3 <=? length parts)%nat
     && let last_part := List.last parts "" in
        (if Str.contains "." last_part then IPv4Address last_part else true)
        && let parts :=
             if Str.contains "." last_part
             then (removelast parts ++ ["0"; "0"])%list
             else parts in
           let n := length parts in
           (n <=? 9)%nat
           && match empty_inner parts with
              | [] =>
                  (n =? 8)%nat
                  && negb (List.hd "" parts =? "")
                  && negb (List.last parts "" =? "")
                  && forallb parse_hextet parts
              | [skip_index] =>
                  let first_empty := List.hd "" parts =? "" in
                  let last_empty := List.last parts "" =? "" in
                  let parts_hi := (skip_index - (if first_empty then 1 else 0))%nat in
                  let parts_lo := (n - skip_index - 1 - (if last_empty then 1 else 0))%nat in
                  negb (first_empty && negb (parts_hi =? 0)%nat)
                  && negb (last_empty && negb (parts_lo =? 0)%nat)
                  && (parts_hi + parts_lo <? 8)%nat
                  && forallb parse_hextet (firstn parts_hi parts)
                  && forallb parse_hextet (skipn (n - parts_lo) parts)
              | _ => false
              end.

(** [IPv6Address(address)] returns for a string: no [/], a scope id after
    [%] that is not empty and has no second [%], and a well-formed
    address before it. *)
Definition IPv6Address (address : string) : bool :=
  negb (Str.contains "/" address)
  && match Str.partition "%" address with
     | (addr, Some scope_id) =>
         negb (scope_id =? "") && negb (Str.contains "%" scope_id)
         && ip_int_from_string addr
     | (addr, None) => ip_int_from_string addr
     end.

End IpAddress.

(** ** urllib.parse, the part [validate_url] reads *)

Module UrlLib.

(** [_WHATWG_C0_CONTROL_OR_SPACE]: the code points 0 to 32. *)
Definition c0_control_or_space (c : ascii) : bool := (nat_of_ascii c <=? 32)%nat.

(** [_UNSAFE_URL_BYTES_TO_REMOVE]: tab, carriage return, line feed. *)
Definition unsafe_byte (c : ascii) : bool :=
  let n := nat_of_ascii c in ((n =? 9) || (n =? 13) || (n =? 10))%nat.

(** [scheme_chars]: letters, digits and [+-.] *)
Definition scheme_char (c : ascii) : bool :=
  let n := nat_of_ascii c in
  ((97 <=? n) && (n <=? 122) || (65 <=? n) && (n <=? 90)
   || (48 <=? n) && (n <=? 57) || (n =? 43) || (n =? 45) || (n =? 46))%nat.

(** The delimiters that end the network location: [/], [?], [#]. *)
Definition netloc_delim (c : ascii) : bool :=
  let n := nat_of_ascii c in ((n =? 47) || (n =? 63) || (n =? 35))%nat.

(** [c.isascii() and c.isalpha()] *)
Definition ascii_alpha (c : ascii) : bool :=
  let n := nat_of_ascii c in
  ((97 <=? n) && (n <=? 122) || (65 <=? n) && (n <=? 90))%nat.


(** The index of the colon that ends the scheme, when the URL has a
    scheme: the colon is not the first character, the URL begins with an
    ASCII letter and everything before the colon is a scheme character. *)
Definition scheme_end (url : string) : option nat :=
  match Str.find ":" url with
  | Some i =>
      if (0 <? i)%nat
         && match url with String c _ => ascii_alpha c | EmptyString => false end
         && Str.all scheme_char (Str.take i url)
      then Some i
      else None
  | None => None
  end.

(** The URL with its scheme split off, when it has one. *)
Definition split_scheme (url : string) : string :=
  match scheme_end url with
  | Some i => Str.drop (S i) url
  | None => url
  end.

(** [_check_bracketed_host] returns: an IPvFuture literal
    [v<hex>+.<text>], or an IPv6 address. *)
Definition check_bracketed_host (hostname : string) : bool :=
  match hostname with
  | String "v" rest =>
      let digits := Str.take_until (fun c => negb (IpAddress.hex_digit c)) rest in
      let tail := Str.drop (String.length digits) rest in
      negb (digits =? "")
      && match tail with
         | String "." text => negb (text =? "") && negb (Str.contains "010" text)
         | _ => false
         end
  | _ =>
      negb (IpAddress.IPv4Address hostname) && IpAddress.IPv6Address hostname
  end.

(** [_check_bracketed_netloc] returns. *)
Definition check_bracketed_netloc (netloc : string) : bool :=
  let hostname_and_port := Str.rpartition_tail "@" netloc in
  match Str.partition "[" hostname_and_port with
  | (before_bracket, Some bracketed) =>
      negb (negb (before_bracket =? ""))
      && match Str.partition "]" bracketed with
         | (hostname, Some port) =>
             negb (negb (port =? "") && negb (String.prefix ":" port))
             && check_bracketed_host hostname
         | (hostname, None) => check_bracketed_host hostname
         end
  | (_, None) =>
      check_bracketed_host (fst (Str.partition ":" hostname_and_port))
  end.

(** The checks of [urlsplit] on the brackets of a network location: one
    of [[] and []] without the other raises [ValueError], and so does a
    bracketed host that [_check_bracketed_netloc] refuses. *)
Definition check_brackets (netloc : string) : Exn + string :=
  if Str.contains "[" netloc && negb (Str.contains "]" netloc)
     || Str.contains "]" netloc && negb (Str.contains "[" netloc)
  then inl (ValueError "Invalid IPv6 URL")
  else if Str.contains "[" netloc && Str.contains "]" netloc
          && negb (check_bracketed_netloc netloc)
  then inl (ValueError "Invalid IPv6 URL")
  else inr netloc.

(** The [netloc] attribute of [urlparse(url)], or the [ValueError] that
    [urlsplit] raises: leading C0 controls and spaces are stripped, tab,
    CR and LF are removed, the scheme is split off, and after [//] the
    network location runs up to the first delimiter and has its brackets
    checked.  This is [urlsplit] of CPython 3.11 with the check of
    bracketed hosts.  Its check [_checknetloc] rejects only code points
    above 255 and is omitted; the message of a [ValueError] is the one of
    [urlsplit] itself also where [ipaddress] words its own, since
    [validate_url] reads no message. *)
Definition urlparse_netloc (url : string) : Exn + string :=
  let url := Str.lstrip_by c0_control_or_space url in
  let url := Str.remove_chars unsafe_byte url in
  let url := split_scheme url in
  if Str.take 2 url =? "//" then
    check_brackets (Str.take_until netloc_delim (Str.drop 2 url))
  else inr "".


End UrlLib.

(** ** utils.py *)

Module Utils.
Import Models.

(** [validate_url] *)
Definition validate_url (url : string) : bool * string :=
  if url =? "" then (false, "URL cannot be empty")
  else if negb (String.prefix "http://" url || String.prefix "https://" url)
  then (false, "URL must start with http:// or https://")
  else
    match UrlLib.urlparse_netloc url with
    | inr netloc =>
        if netloc =? "" then (false, "Invalid URL format")
        else if (String.length netloc <? 3)%nat then (false, "Invalid domain name")
        else (true, "")
    | inl _ => (false, "Invalid URL format")
    end.

(** The random source: a tape of draws and the position of the next one. *)
Record RandomState := mkRandom {
  tape : nat -> nat;
  cursor : nat
}.

(** A uniform draw below [n], read off the tape. *)
Definition randbelow (n : nat) (r : RandomState) : nat * RandomState :=
  ((tape r (cursor r) mod n)%nat, mkRandom (tape r) (S (cursor r))).

(** [string.ascii_letters + string.digits] *)
Definition characters : string :=
  "abcdefghijklmnopqrstuvwxyzABCDEFGHIJKLMNOPQRSTUVWXYZ0123456789".

(** [random.choice(seq)] on a non-empty [seq]. *)
Definition choice (seq : string) (r : RandomState) : ascii * RandomState :=
  let '(i, r') := randbelow (String.length seq) r in
  (default "000"%char (String.get i seq), r').

(** [generate_short_code] *)
Fixpoint generate_short_code (length : nat) (r : RandomState) : string * RandomState :=
  match length with
  | O => ("", r)
  | S n =>
      let '(c, r1) := choice characters r in
      let '(s, r2) := generate_short_code n r1 in
      (String c s, r2)
  end.

Definition unable_to_generate (max_attempts : nat) : string :=
  "Unable to generate unique short code after " +:+ pretty max_attempts +:+ " attempts".

(** The [for] loop of [generate_unique_short_code] with [n] iterations
    left; [exn] is what is raised once the loop has run out. *)
Fixpoint unique_loop (w : World) (length n : nat) (exn : Exn) (r : RandomState)
  : (Exn + string) * RandomState :=
  match n with
  | O => (inl exn, r)
  | S n' =>
      let '(short_code, r1) := generate_short_code length r in
      if negb (url_exists w short_code) then (inr short_code, r1)
      else unique_loop w length n' exn r1
  end.

(** [generate_unique_short_code] *)
Definition generate_unique_short_code (w : World) (length max_attempts : nat)
    (r : RandomState) : (Exn + string) * RandomState :=
  unique_loop w length max_attempts (RuntimeError (unable_to_generate max_attempts)) r.

(** [sanitize_url] *)
Definition sanitize_url (url : string) : string := Str.strip url.

Definition is_slash (c : ascii) : bool := Ascii.eqb c "/".

(** [format_short_url] *)
Definition format_short_url (short_code base_url : string) : string :=
  Str.rstrip_by is_slash base_url +:+ "/" +:+ short_code.

Definition default_length : nat := 6.
Definition default_max_attempts : nat := 10.
Definition default_base_url : string := "http://localhost:5000".

End Utils.

(** ** main.py *)

Module Main.
Import Models Utils.

(** The JSON bodies the handlers produce. *)
Inductive Body :=
| ErrorBody (error : string)
| ShortenBody (short_code short_url : string)
| StatsBody (url : string) (clicks : Z) (created_at : string).

(** What a handler returns: [jsonify(...), status], or the response of
    [redirect] with the location it was given. *)
Inductive Response :=
| Json (body : Body) (status : nat)
| Redirect (location : string) (code : nat).

(** A decoded JSON document.  Of a number the handler reads only whether
    it is zero. *)
#[local] Set Warnings "-register-all".
Inductive JsonValue :=
| JNull
| JBool (b : bool)
| JNumber (nonzero : bool)
| JString (s : string)
| JArray (items : list JsonValue)
| JObject (members : gmap string JsonValue).

(** A POST to [/api/shorten]: whether the content type is JSON, and what
    [request.get_json()] does: it returns the decoded body, or raises
    ([BadRequest] for a body that is not JSON). *)
Record Request := mkRequest {
  is_json : bool;
  get_json : Exn + JsonValue
}.

(** [bool(data)] *)
Definition truthy (data : JsonValue) : bool :=
  match data with
  | JNull => false
  | JBool b => b
  | JNumber nonzero => nonzero
  | JString s => negb (s =? "")
  | JArray items => match items with [] => false | _ :: _ => true end
  | JObject members => match map_to_list members with [] => false | _ :: _ => true end
  end.

(** [item == 'url'] *)
Definition is_url (item : JsonValue) : bool :=
  match item with
  | JString s => s =? "url"
  | _ => false
  end.

(** ['url' in data]: a key of a dict, an item of a list, a part of a
    string; [TypeError] for a value that is no container. *)
Definition contains_url (data : JsonValue) : Exn + bool :=
  match data with
  | JObject members =>
      inr (match members !! "url" with Some _ => true | None => false end)
  | JArray items => inr (existsb is_url items)
  | JString s => inr (Str.contains_str "url" s)
  | JNull | JBool _ | JNumber _ => inl TypeError
  end.

(** [data['url']]: a list and a string take no string as an index. *)
Definition getitem_url (data : JsonValue) : Exn + JsonValue :=
  match data with
  | JObject members =>
      match members !! "url" with
      | Some value => inr value
      | None => inl (KeyError "url")
      end
  | _ => inl TypeError
  end.

(** [sanitize_url(value)] on a decoded value: only a string has [strip]. *)
Definition sanitize_value (value : JsonValue) : Exn + string :=
  match value with
  | JString url => inr (sanitize_url url)
  | _ => inl AttributeError
  end.

(** The answer of the outer [except Exception] of both handlers. *)
Definition internal_server_error : Response :=
  Json (ErrorBody "Internal server error") 500.

(** [shorten_url].  An exception outside the two inner [try] blocks
    reaches the outer handler. *)
Definition shorten_url (req : Request) (now : string) (w : World) (r : RandomState)
  : Response * World * RandomState :=
  if negb (is_json req) then
    (Json (ErrorBody "Content-Type must be application/json") 400, w, r)
  else
    match get_json req with
    | inl _ => (internal_server_error, w, r)
    | inr data =>
        if negb (truthy data) then (Json (ErrorBody "URL is required") 400, w, r)
        else
          match contains_url data with
          | inl _ => (internal_server_error, w, r)
          | inr false => (Json (ErrorBody "URL is required") 400, w, r)
          | inr true =>
              match getitem_url data with
              | inl _ => (internal_server_error, w, r)
              | inr value =>
                  match sanitize_value value with
                  | inl _ => (internal_server_error, w, r)
                  | inr original_url =>
                      let '(is_valid, error_message) := validate_url original_url in
                      if negb is_valid then (Json (ErrorBody error_message) 400, w, r)
                      else
                        match generate_unique_short_code
                                w default_length default_max_attempts r with
                        | (inl _, r1) =>
                            (Json (ErrorBody
                                     "Unable to generate short code. Please try again.")
                                  500, w, r1)
                        | (inr short_code, r1) =>
                            match create_url_mapping w short_code original_url now with
                            | (inl (ValueError msg), w1) =>
                                (Json (ErrorBody msg) 409, w1, r1)
                            | (inl _, w1) => (internal_server_error, w1, r1)
                            | (inr _, w1) =>
                                let short_url :=
                                  format_short_url short_code default_base_url in
                                (Json (ShortenBody short_code short_url) 201, w1, r1)
                            end
                        end
                  end
              end
          end
    end.

(** [flask.redirect(location, code)]: the response, or the [ValueError]
    that Werkzeug raises when the value of the [Location] header holds a
    carriage return or a line feed. *)
Definition redirect (location : string) (code : nat) : Exn + Response :=
  if Str.contains "013" location || Str.contains "010" location
  then inl (ValueError "Header values must not contain newline characters.")
  else inr (Redirect location code).

(** [redirect_to_url].  [url_data] is the dict object of the table, read
    after the click has been counted; a missing object is the [KeyError]
    that the outer handler turns into a 500, like the [ValueError] of
    [redirect]. *)
Definition redirect_to_url (short_code : string) (w : World) : Response * World :=
  match get_url_mapping w short_code with
  | None => (Json (ErrorBody "Short code not found") 404, w)
  | Some url_data =>
      let '(_, w1) := increment_clicks w short_code in
      match read_dict w1 url_data with
      | Some d =>
          match redirect (original_url d) 302 with
          | inr response => (response, w1)
          | inl _ => (internal_server_error, w1)
          end
      | None => (internal_server_error, w1)
      end
  end.

(** [get_url_stats] *)
Definition get_url_stats (short_code : string) (w : World) : Response :=
  match get_stats w short_code with
  | None => Json (ErrorBody "Short code not found") 404
  | Some stats =>
      Json (StatsBody (stats_url stats) (stats_clicks stats) (stats_created_at stats)) 200
  end.

(** The service operations of the specification, on the handlers:
    [shorten] posts the JSON object [{"url": raw_url}], [resolve] follows
    a code. *)
Definition post_url (raw_url : string) : Request :=
  mkRequest true (inr (JObject {[ "url" := JString raw_url ]})).

Definition shorten (raw_url now : string) (w : World) (r : RandomState)
  : Response * World * RandomState :=
  shorten_url (post_url raw_url) now w r.

Definition resolve (short_code : string) (w : World) : Response * World :=
  redirect_to_url short_code w.

End Main.

Import Models Utils Main.

(** ** The store operations as a sequence of calls *)

(** One call of a store method with its arguments; [Create] carries the
    time stamp that [datetime.now()] yields in that call. *)
Inductive Op :=
| Create (short_code original_url now : string)
| Get (short_code : string)
| IncrementClicks (short_code : string)
| Exists (short_code : string)
| GetStats (short_code : string).

(** The world after one call; the three readers return the world as it is. *)
Definition run_op (w : World) (o : Op) : World :=
  match o with
  | Create c u now => snd (create_url_mapping w c u now)
  | Get c => let _ := get_url_mapping w c in w
  | IncrementClicks c => snd (increment_clicks w c)
  | Exists c => let _ := url_exists w c in w
  | GetStats c => let _ := get_stats w c in w
  end.

Definition run_ops (w : World) (ops : list Op) : World := foldl run_op w ops.

(** A read-only call. *)
Definition is_read (o : Op) : bool :=
  match o with
  | Get _ | Exists _ | GetStats _ => true
  | Create _ _ _ | IncrementClicks _ => false
  end.

(** ** Threads that call the store *)

Module Threads.

(** What a call hands back to its caller. *)
Inductive Result :=
| Raised (e : Exn)
| ReturnedDict (url_data : positive)
| ReturnedMapping (url_data : option positive)
| ReturnedBool (b : bool)
| ReturnedStats (stats : option Stats).

(** A call executed in one piece, by the functions of [Models]. *)
Definition call (w : World) (o : Op) : Result * World :=
  match o with
  | Create c u now =>
      match create_url_mapping w c u now with
      | (inl e, w') => (Raised e, w')
      | (inr l, w') => (ReturnedDict l, w')
      end
  | Get c => (ReturnedMapping (get_url_mapping w c), w)
  | IncrementClicks c =>
      let '(b, w') := increment_clicks w c in (ReturnedBool b, w')
  | Exists c => (ReturnedBool (url_exists w c), w)
  | GetStats c => (ReturnedStats (get_stats w c), w)
  end.

(** Where a thread stands in the method it calls, with its local
    variables.  A thread may be preempted between any two of these points.
    - [Start]: before [with self._lock].
    - [Body]: the lock is acquired, the first statement is next.
    - [IncLoad], [IncStore]: the two halves of [... ['clicks'] += 1], the
      read of the counter of the dict [url_data] and the write of the sum.
    - [CrBuild], [CrInsert], [CrCopy]: the dict literal, the assignment
      [self._urls[short_code] = url_data] and [url_data.copy()].
    - [Exit]: leaving the [with] block, by [return] or by [raise].
    - [Done]: the call has returned. *)
Inductive Thread :=
| Start (o : Op)
| Body (o : Op)
| IncLoad (short_code : string)
| IncStore (short_code : string) (url_data : positive) (tmp : Z)
| CrBuild (short_code original_url now : string)
| CrInsert (short_code original_url now : string) (url_data : positive)
| CrCopy (short_code original_url now : string) (url_data : positive)
| Exit (r : Result)
| Done (r : Result).

(** The process: the world, the state of [self._lock], and the threads. *)
Record System := mkSystem {
  world : World;
  locked : bool;
  threads : list Thread
}.

(** One step of a thread, or [None] when it cannot move: [acquire] blocks
    while the lock is held, and a finished thread has nothing to do. *)
Definition thread_step (w : World) (lk : bool) (t : Thread)
  : option (World * bool * Thread) :=
  match t with
  | Start o => if lk then None else Some (w, true, Body o)
  | Body (Create c u now) =>
      match _urls w !! c with
      | Some _ => Some (w, lk, Exit (Raised (ValueError (already_exists c))))
      | None => Some (w, lk, CrBuild c u now)
      end
  | Body (Get c) => Some (w, lk, Exit (ReturnedMapping (_urls w !! c)))
  | Body (IncrementClicks c) =>
      match _urls w !! c with
      | Some _ => Some (w, lk, IncLoad c)
      | None => Some (w, lk, Exit (ReturnedBool false))
      end
  | Body (Exists c) => Some (w, lk, Exit (ReturnedBool (url_exists w c)))
  | Body (GetStats c) => Some (w, lk, Exit (ReturnedStats (get_stats w c)))
  | IncLoad c =>
      match _urls w !! c with
      | Some l =>
          match dicts w !! l with
          | Some d => Some (w, lk, IncStore c l (clicks d))
          | None => Some (w, lk, Exit (Raised (KeyError "clicks")))
          end
      | None => Some (w, lk, Exit (Raised (KeyError c)))
      end
  | IncStore c l tmp =>
      Some (mkWorld (alter (set_clicks (tmp + 1)) l (dicts w)) (_urls w), lk,
            Exit (ReturnedBool true))
  | CrBuild c u now =>
      let '(l, h1) := new_dict (mkUrlData u c 0 now) (dicts w) in
      Some (mkWorld h1 (_urls w), lk, CrInsert c u now l)
  | CrInsert c u now l =>
      Some (mkWorld (dicts w) (<[c := l]> (_urls w)), lk, CrCopy c u now l)
  | CrCopy c u now l =>
      match dicts w !! l with
      | Some d =>
          let '(l', h2) := new_dict d (dicts w) in
          Some (mkWorld h2 (_urls w), lk, Exit (ReturnedDict l'))
      | None => Some (w, lk, Exit (Raised (KeyError "url_data")))
      end
  | Exit r => Some (w, false, Done r)
  | Done _ => None
  end.

(** The scheduler lets thread [i] take its next step. *)
Definition step (i : nat) (s : System) : option System :=
  match threads s !! i with
  | Some t =>
      match thread_step (world s) (locked s) t with
      | Some (w', lk', t') => Some (mkSystem w' lk' (<[i := t']> (threads s)))
      | None => None
      end
  | None => None
  end.

(** An execution: the threads move in the order of the schedule. *)
Fixpoint run (sched : list nat) (s : System) : option System :=
  match sched with
  | [] => Some s
  | i :: sched' =>
      match step i s with
      | Some s' => run sched' s'
      | None => None
      end
  end.

(** One thread per call, none started, the lock free. *)
Definition init (w : World) (calls : list Op) : System :=
  mkSystem w false (Start <$> calls).

Definition is_done (t : Thread) : bool :=
  match t with Done _ => true | _ => false end.

Definition all_done (s : System) : Prop := forallb is_done (threads s) = true.

(** What the call of thread [i] returned, once it has. *)
Definition result_of (s : System) (i : nat) : option Result :=
  match threads s !! i with
  | Some (Done r) => Some r
  | _ => None
  end.

(** The calls executed one after the other, in the order [order] of their
    indices: the world after them and the result of the [k]-th of them. *)
Definition seq_step (calls : list Op) (w : World) (i : nat) : World :=
  match calls !! i with
  | Some o => snd (call w o)
  | None => w
  end.

Definition seq_world (w0 : World) (calls : list Op) (order : list nat) : World :=
  foldl (seq_step calls) w0 order.

Definition seq_result (w0 : World) (calls : list Op) (order : list nat) (k : nat)
  : option Result :=
  match order !! k with
  | Some i =>
      match calls !! i with
      | Some o => Some (fst (call (seq_world w0 calls (take k order)) o))
      | None => None
      end
  | None => None
  end.

(** The steps a thread has left at most. *)
Definition steps_left (t : Thread) : nat :=
  match t with
  | Start _ => 6
  | Body _ => 5
  | CrBuild _ _ _ => 4
  | CrInsert _ _ _ _ => 3
  | IncLoad _ => 3
  | CrCopy _ _ _ _ => 2
  | IncStore _ _ _ => 2
  | Exit _ => 1
  | Done _ => 0
  end.

Definition budget (s : System) : nat := sum_list (steps_left <$> threads s).


(** Inside the [with] block. *)
Definition critical (t : Thread) : bool :=
  match t with
  | Start _ | Done _ => false
  | _ => true
  end.

(** What holds of a thread at point [t] of the call [o] that it entered in
    the world [w_pre], and of the world [w] it has made of it so far. *)
Definition inside (w_pre : World) (o : Op) (t : Thread) (w : World) : Prop :=
  match t with
  | Body o' => o' = o ∧ w = w_pre
  | IncLoad c => o = IncrementClicks c ∧ w = w_pre ∧ is_Some (_urls w_pre !! c)
  | IncStore c l tmp =>
      o = IncrementClicks c ∧ w = w_pre ∧ _urls w_pre !! c = Some l
      ∧ ∃ d, dicts w_pre !! l = Some d ∧ tmp = clicks d
  | CrBuild c u now => o = Create c u now ∧ w = w_pre ∧ _urls w_pre !! c = None
  | CrInsert c u now l =>
      o = Create c u now ∧ _urls w_pre !! c = None
      ∧ l = fresh (dom (dicts w_pre))
      ∧ w = mkWorld (<[l := mkUrlData u c 0 now]> (dicts w_pre)) (_urls w_pre)
  | CrCopy c u now l =>
      o = Create c u now ∧ _urls w_pre !! c = None
      ∧ l = fresh (dom (dicts w_pre))
      ∧ w = mkWorld (<[l := mkUrlData u c 0 now]> (dicts w_pre))
                    (<[c := l]> (_urls w_pre))
  | Exit r => call w_pre o = (r, w)
  | Start _ | Done _ => False
  end.

(** The place of thread [i] in the history [hist], the list of the threads
    in the order in which they took the lock: a thread at [Start] is not in
    it, a thread inside the block is its last entry, and a finished thread
    returned what its call returns after the calls before it. *)
Definition thread_ok (w0 : World) (calls : list Op) (hist : list nat) (s : System)
    (i : nat) (t : Thread) : Prop :=
  match t with
  | Start o => calls !! i = Some o ∧ i ∉ hist
  | Done r =>
      ∃ h1 h2 o, hist = (h1 ++ i :: h2)%list ∧ calls !! i = Some o
        ∧ r = fst (call (seq_world w0 calls h1) o)
  | _ =>
      locked s = true
      ∧ ∃ h o, hist = (h ++ [i])%list ∧ calls !! i = Some o
          ∧ inside (seq_world w0 calls h) o t (world s)
  end.

(** What every reachable state of the process satisfies. *)
Record invariant (w0 : World) (calls : list Op) (hist : list nat) (s : System) : Prop := {
  inv_nodup : NoDup hist;
  inv_range : ∀ i, i ∈ hist → is_Some (calls !! i);
  inv_free : locked s = false → world s = seq_world w0 calls hist;
  inv_held : locked s = true → ∃ i t, threads s !! i = Some t ∧ critical t = true;
  inv_threads : ∀ i t, threads s !! i = Some t → thread_ok w0 calls hist s i t;
  inv_length : length (threads s) = length calls
}.

End Threads.

Import Threads.

(** ** The validator in the words of the specification *)





(** ** The validator in terms of the text of its input *)

(** The characters of a string, and whether [c] is one of them. *)
Definition chars (s : string) : list ascii := list_ascii_of_string s.

Definition has (c : ascii) (s : string) : bool := existsb (Ascii.eqb c) (chars s).






(** A string without carriage return and line feed. *)
Definition single_line (s : string) : bool :=
  negb (has "013" s) && negb (has "010" s).

(** Neither a delimiter nor a bracket: such a character extends the
    network location or is left behind it, and does not change the
    parser's verdict. *)
Definition neutral (c : ascii) : bool :=
  negb (UrlLib.netloc_delim c) && negb (Ascii.eqb c "[") && negb (Ascii.eqb c "]").

(** ** The generator in the words of the specification *)

(** The first [n] candidate codes that the random source yields from [r] on. *)
Fixpoint candidates (length n : nat) (r : RandomState) : list string :=
  match n with
  | O => []
  | S n' =>
      let '(short_code, r1) := generate_short_code length r in
      short_code :: candidates length n' r1
  end.

(** An upper-case or lower-case letter or a digit. *)
Definition is_alnum (c : ascii) : bool :=
  let n := nat_of_ascii c in
  ((97 <=? n) && (n <=? 122) || (65 <=? n) && (n <=? 90) || (48 <=? n) && (n <=? 57))%nat.

(** How a record may differ from an earlier state of itself: only by a
    larger click count. *)
Definition evolves (d d' : UrlData) : Prop :=
  original_url d' = original_url d
  ∧ short_code d' = short_code d
  ∧ created_at d' = created_at d
  ∧ (clicks d ≤ clicks d')%Z.

(** ** Inputs used in the examples *)

Definition demo_tape : nat -> nat := λ n, (7 * n + 3)%nat.
Definition demo_random : RandomState := mkRandom demo_tape 0.
Definition demo_now : string := "2024-01-01T10:00:00".
Definition demo_url : string := "https://www.example.com/very/long/url".

(** The world after [create_url_mapping("abc123", demo_url)]. *)
Definition demo_world : World :=
  snd (create_url_mapping empty_world "abc123" demo_url demo_now).

(** A world in which the first candidate of [demo_random] is taken. *)
Definition taken_world : World :=
  snd (create_url_mapping empty_world "dkryFM" demo_url demo_now).

(** A random source that always draws 0, and a world that holds the one
    code it can produce. *)
Definition stuck_random : RandomState := mkRandom (λ _, 0%nat) 0.
Definition stuck_world : World :=
  snd (create_url_mapping empty_world "aaaaaa" demo_url demo_now).

(** ** Strings with and without surrounding characters *)

(** Every character of [s] is whitespace. *)
Definition blank (s : string) : Prop := Str.all Str.isspace s = true.

(** The first and the last character of [s] satisfy [p]; [false] on the
    empty string. *)
Definition starts_with (p : ascii -> bool) (s : string) : bool :=
  match s with
  | EmptyString => false
  | String c _ => p c
  end.

Fixpoint ends_with (p : ascii -> bool) (s : string) : bool :=
  match s with
  | EmptyString => false
  | String c s' =>
      match s' with
      | EmptyString => p c
      | String _ _ => ends_with p s'
      end
  end.

(** A character of a plain host name: a letter, a digit, a dot or a hyphen. *)
Definition host_char (c : ascii) : bool :=
  is_alnum c || Ascii.eqb c "." || Ascii.eqb c "-".

(** ** The routes of main.py that work on the store *)

(** A request to one of the three routes; [PostShorten] carries the time
    stamp that [datetime.now()] yields while it is served. *)
Inductive HttpRequest :=
| PostShorten (req : Request) (now : string)
| GetShortCode (short_code : string)
| GetStatsOf (short_code : string).

(** The handler of the route, on the world and the random source. *)
Definition handle (h : HttpRequest) (w : World) (r : RandomState)
  : Response * World * RandomState :=
  match h with
  | PostShorten req now => shorten_url req now w r
  | GetShortCode c => let '(resp, w') := redirect_to_url c w in (resp, w', r)
  | GetStatsOf c => (get_url_stats c w, w, r)
  end.

(** The world and the random source after a sequence of requests. *)
Fixpoint handle_all (hs : list HttpRequest) (w : World) (r : RandomState)
  : World * RandomState :=
  match hs with
  | [] => (w, r)
  | h :: hs' => let '(_, w', r') := handle h w r in handle_all hs' w' r'
  end.

(** What holds of every record that the routes put into the store. *)
Definition stored_record_ok (code : string) (d : UrlData) : Prop :=
  short_code d = code
  ∧ String.length code = default_length
  ∧ Str.all is_alnum code = true
  ∧ validate_url (original_url d) = (true, "")
  ∧ sanitize_url (original_url d) = original_url d
  ∧ (0 ≤ clicks d)%Z.

Definition store_ok (w : World) : Prop :=
  well_formed w ∧ ∀ code d, record_of w code = Some d → stored_record_ok code d.

(** ** Counting calls *)

Definition is_increment_of (code : string) (o : Op) : bool :=
  match o with
  | IncrementClicks c => String.eqb c code
  | _ => false
  end.

(** The number of calls of [increment_clicks] on [code] among [calls]. *)
Definition increments_of (code : string) (calls : list Op) : nat :=
  length (List.filter (is_increment_of code) calls).

Definition is_create_of (code : string) (o : Op) : bool :=
  match o with
  | Create c _ _ => String.eqb c code
  | _ => false
  end.

Definition is_redirect_of (code : string) (h : HttpRequest) : bool :=
  match h with
  | GetShortCode c => String.eqb c code
  | _ => false
  end.

(** The number of requests for [/<code>] among [hs]. *)
Definition redirects_of (code : string) (hs : list HttpRequest) : nat :=
  length (List.filter (is_redirect_of code) hs).

(** * Facts about the store *)

Section StoreFacts.
Implicit Types (w : World) (code : string) (l : positive) (d : UrlData).

Lemma fresh_dict_unused (h : gmap positive UrlData) : h !! fresh (dom h) = None.
Proof. apply not_elem_of_dom, is_fresh. Qed.

Lemma well_formed_empty : well_formed empty_world.
Proof. intros code l H. cbn in H. by rewrite lookup_empty in H. Qed.

Lemma record_of_Some w code d :
  record_of w code = Some d ↔ ∃ l, _urls w !! code = Some l ∧ dicts w !! l = Some d.
Proof.
  unfold record_of. destruct (_urls w !! code) as [l|]; cbn.
  - split; [eauto | by intros (? & [= <-] & ?)].
  - split; [done | by intros (? & ? & ?)].
Qed.

Lemma well_formed_record w code :
  well_formed w → is_Some (_urls w !! code) → is_Some (record_of w code).
Proof.
  intros Hwf [l Hl]. destruct (Hwf _ _ Hl) as (d & Hd & _).
  exists d. apply record_of_Some. eauto.
Qed.

(** Two codes of a well-formed table never share a dict. *)
Lemma well_formed_inj w c1 c2 l :
  well_formed w → _urls w !! c1 = Some l → _urls w !! c2 = Some l → c1 = c2.
Proof.
  intros Hwf H1 H2.
  destruct (Hwf _ _ H1) as (d1 & Hd1 & <-).
  destruct (Hwf _ _ H2) as (d2 & Hd2 & <-). congruence.
Qed.

(** The shape of a successful [create_url_mapping]. *)
Lemma create_fresh w code url now :
  _urls w !! code = None →
  let d := mkUrlData url code 0 now in
  let l := fresh (dom (dicts w)) in
  let l' := fresh (dom (<[l := d]> (dicts w))) in
  create_url_mapping w code url now
  = (inr l', mkWorld (<[l' := d]> (<[l := d]> (dicts w))) (<[code := l]> (_urls w))).
Proof. intros H. unfold create_url_mapping, new_dict. by rewrite H. Qed.

Lemma create_duplicate w code url now :
  is_Some (_urls w !! code) →
  create_url_mapping w code url now = (inl (ValueError (already_exists code)), w).
Proof. intros [l H]. unfold create_url_mapping. by rewrite H. Qed.

(** Allocation leaves every live dict as it is. *)
Lemma create_keeps_dicts w code url now l d :
  dicts w !! l = Some d →
  dicts (snd (create_url_mapping w code url now)) !! l = Some d.
Proof.
  intros Hl. destruct (_urls w !! code) as [l0|] eqn:Hc.
  - by rewrite create_duplicate.
  - rewrite create_fresh by done. cbn.
    set (d0 := mkUrlData url code 0 now). set (l1 := fresh (dom (dicts w))).
    assert (l1 ≠ l) as Hne1.
    { intros Heq. rewrite <- Heq in Hl. unfold l1 in Hl.
      by rewrite fresh_dict_unused in Hl. }
    assert (fresh (dom (<[l1 := d0]> (dicts w))) ≠ l) as Hne2.
    { intros Heq. pose proof (fresh_dict_unused (<[l1 := d0]> (dicts w))) as Hf.
      rewrite Heq, lookup_insert_ne in Hf by done. congruence. }
    by rewrite !lookup_insert_ne.
Qed.

Lemma create_record_same w code url now :
  _urls w !! code = None →
  record_of (snd (create_url_mapping w code url now)) code
  = Some (mkUrlData url code 0 now).
Proof.
  intros Hc. rewrite create_fresh by done. cbn.
  set (d := mkUrlData url code 0 now). set (l := fresh (dom (dicts w))).
  apply record_of_Some. exists l. cbn. split; [apply lookup_insert_eq|].
  destruct (decide (fresh (dom (<[l:=d]> (dicts w))) = l)) as [->|Hne].
  - apply lookup_insert_eq.
  - rewrite lookup_insert_ne by done. apply lookup_insert_eq.
Qed.

Lemma create_record_other w code url now c :
  well_formed w → c ≠ code →
  record_of (snd (create_url_mapping w code url now)) c = record_of w c.
Proof.
  intros Hwf Hne. destruct (_urls w !! code) as [l0|] eqn:Hc.
  - by rewrite create_duplicate.
  - pose proof (create_keeps_dicts w code url now) as Hkeep.
    rewrite create_fresh in * by done. cbn in Hkeep.
    unfold record_of. cbn. rewrite lookup_insert_ne by done.
    destruct (_urls w !! c) as [lc|] eqn:Hlc; [cbn|done].
    destruct (Hwf _ _ Hlc) as (d & Hd & _). rewrite Hd. by apply Hkeep.
Qed.

Lemma create_well_formed w code url now :
  well_formed w → well_formed (snd (create_url_mapping w code url now)).
Proof.
  intros Hwf c l Hl. destruct (_urls w !! code) as [l0|] eqn:Hc.
  - rewrite create_duplicate in Hl |- * by eauto. by apply Hwf.
  - destruct (decide (c = code)) as [->|Hne].
    + pose proof (create_record_same w code url now Hc) as Hr.
      apply record_of_Some in Hr as (l1 & Hl1 & Hd).
      rewrite Hl in Hl1. injection Hl1 as <-. eauto.
    + pose proof (create_keeps_dicts w code url now) as Hkeep.
      rewrite create_fresh in * by done. cbn in *.
      rewrite lookup_insert_ne in Hl by done.
      destruct (Hwf _ _ Hl) as (d & Hd & Hk). exists d. split; [|done].
      by apply Hkeep.
Qed.

Lemma increment_record_same w code d :
  record_of w code = Some d →
  record_of (snd (increment_clicks w code)) code = Some (add_click d).
Proof.
  intros (l & Hl & Hd)%record_of_Some. unfold increment_clicks. rewrite Hl. cbn.
  apply record_of_Some. exists l. cbn. split; [done|].
  by rewrite lookup_alter_eq, Hd.
Qed.

Lemma increment_record_other w code c :
  well_formed w → c ≠ code →
  record_of (snd (increment_clicks w code)) c = record_of w c.
Proof.
  intros Hwf Hne. unfold increment_clicks.
  destruct (_urls w !! code) as [l|] eqn:Hl; [cbn|done].
  unfold record_of. cbn. destruct (_urls w !! c) as [lc|] eqn:Hlc; [cbn|done].
  rewrite lookup_alter_ne; [done|].
  intros <-. apply Hne. symmetry. by eapply well_formed_inj.
Qed.

Lemma increment_well_formed w code :
  well_formed w → well_formed (snd (increment_clicks w code)).
Proof.
  intros Hwf c l Hl. unfold increment_clicks in *.
  destruct (_urls w !! code) as [l0|] eqn:Hc; cbn in *; [|by apply Hwf].
  destruct (Hwf _ _ Hl) as (d & Hd & Hk).
  destruct (decide (l0 = l)) as [->|Hne].
  - exists (add_click d). by rewrite lookup_alter_eq, Hd.
  - exists d. by rewrite lookup_alter_ne.
Qed.

Lemma run_op_well_formed w o : well_formed w → well_formed (run_op w o).
Proof.
  destruct o; cbn; auto using create_well_formed, increment_well_formed.
Qed.

Lemma run_ops_well_formed ops : ∀ w, well_formed w → well_formed (run_ops w ops).
Proof.
  induction ops as [|o ops IH]; intros w Hwf; [done|].
  cbn. apply IH. by apply run_op_well_formed.
Qed.

Lemma demo_world_well_formed : well_formed demo_world.
Proof. apply create_well_formed, well_formed_empty. Qed.

End StoreFacts.

(** * The mapping store, one call at a time *)

Section StoreCalls.
Implicit Types (w : World) (code : string) (l : positive) (d : UrlData).

Lemma url_exists_true w code : url_exists w code = true ↔ is_Some (_urls w !! code).
Proof. unfold url_exists. apply bool_decide_eq_true. Qed.

Lemma url_exists_false w code : url_exists w code = false ↔ _urls w !! code = None.
Proof.
  unfold url_exists. rewrite bool_decide_eq_false. symmetry. apply eq_None_not_Some.
Qed.

(** C2. [create_url_mapping] raises the duplicate-code [ValueError] exactly
    when the code is already in the table, and then the world is the one it
    started from.  Otherwise it adds one entry to the table, the record
    [(url, code, 0, now)], returns a dict with these contents that is not
    the dict of the table, and leaves the record of every other code alone. *)
Theorem create_url_mapping_spec w code url now (res : Exn + positive) w' :
  well_formed w →
  create_url_mapping w code url now = (res, w') →
  (url_exists w code = true ↔ ∃ e, res = inl e)
  ∧ match res with
    | inl e => e = ValueError (already_exists code) ∧ w' = w
    | inr copy =>
        let d := mkUrlData url code 0 now in
        record_of w' code = Some d
        ∧ read_dict w' copy = Some d
        ∧ get_url_mapping w' code ≠ Some copy
        ∧ dom (_urls w') = {[code]} ∪ dom (_urls w)
        ∧ size (_urls w') = S (size (_urls w))
        ∧ ∀ c, c ≠ code → record_of w' c = record_of w c
    end.
Proof.
  intros Hwf Hrun. destruct (_urls w !! code) as [l0|] eqn:Hc.
  - rewrite create_duplicate in Hrun by eauto. injection Hrun as <- <-.
    split; [|done]. rewrite url_exists_true. split; eauto.
  - pose proof (create_record_same w code url now Hc) as Hsame.
    pose proof (create_record_other w code url now) as Hother.
    rewrite Hrun in Hsame, Hother. cbn in Hsame, Hother.
    rewrite create_fresh in Hrun by done. injection Hrun as <- <-.
    split.
    { rewrite url_exists_true, Hc. split; [by intros [? ?] | by intros [? ?]]. }
    cbn. split; [done|]. unfold read_dict, get_url_mapping. cbn.
    split; [apply lookup_insert_eq|]. split.
    { rewrite lookup_insert_eq. intros [= Heq].
      pose proof (fresh_dict_unused
        (<[fresh (dom (dicts w)) := mkUrlData url code 0 now]> (dicts w))) as Hf.
      by rewrite <- Heq, lookup_insert_eq in Hf. }
    split; [apply dom_insert_L|]. split; [by apply map_size_insert_None|].
    intros c Hne. by apply Hother.
Qed.

Lemma create_url_mapping_spec_witness :
  well_formed empty_world
  ∧ record_of demo_world "abc123" = Some (mkUrlData demo_url "abc123" 0 demo_now)
  ∧ size (_urls demo_world) = 1%nat.
Proof.
  split; [exact well_formed_empty|].
  destruct (create_url_mapping_spec empty_world "abc123" demo_url demo_now
              (fst (create_url_mapping empty_world "abc123" demo_url demo_now))
              demo_world well_formed_empty eq_refl) as [_ H].
  vm_compute in H. vm_compute. tauto.
Defined.

(** C7. [increment_clicks] on a code of the table returns [True] and adds
    exactly one to the clicks of its record, keeping the other three
    fields; on any other code it returns [False] and the world is the one
    it started from.  The table and the records of all other codes stay as
    they are. *)
Theorem increment_clicks_spec w code (ok : bool) w' :
  well_formed w →
  increment_clicks w code = (ok, w') →
  ok = url_exists w code
  ∧ (url_exists w code = true →
       ∃ d d', record_of w code = Some d ∧ record_of w' code = Some d'
         ∧ clicks d' = clicks d + 1
         ∧ original_url d' = original_url d
         ∧ short_code d' = short_code d
         ∧ created_at d' = created_at d)
  ∧ (url_exists w code = false → w' = w)
  ∧ (∀ c, c ≠ code → record_of w' c = record_of w c)
  ∧ _urls w' = _urls w.
Proof.
  intros Hwf Hrun.
  pose proof (increment_record_other w code) as Hother.
  pose proof (increment_record_same w code) as Hsame.
  rewrite Hrun in Hother, Hsame. cbn in Hother, Hsame.
  unfold increment_clicks in Hrun.
  destruct (_urls w !! code) as [l|] eqn:Hl; injection Hrun as <- <-.
  - assert (url_exists w code = true) as Hex by (apply url_exists_true; eauto).
    rewrite Hex. split; [done|]. split; [|split; [done|split; [auto|done]]].
    intros _. destruct (well_formed_record w code Hwf) as [d Hd]; [eauto|].
    exists d, (add_click d). split; [done|]. split; [auto|done].
  - assert (url_exists w code = false) as Hex by (by apply url_exists_false).
    rewrite Hex. split; [done|]. split; [done|]. split; [done|]. split; [auto|done].
Qed.

Lemma increment_clicks_spec_witness :
  well_formed demo_world
  ∧ fst (increment_clicks demo_world "abc123") = true
  ∧ fst (increment_clicks demo_world "nonexistent") = false.
Proof.
  split; [exact demo_world_well_formed|].
  split.
  - destruct (increment_clicks_spec demo_world "abc123"
                (fst (increment_clicks demo_world "abc123"))
                (snd (increment_clicks demo_world "abc123"))
                demo_world_well_formed eq_refl) as [H _].
    rewrite H. vm_compute. reflexivity.
  - reflexivity.
Defined.

End StoreCalls.

(** * The store under any sequence of calls *)

Section StoreInvariant.
Implicit Types (w : World) (code : string) (d : UrlData) (o : Op).

Lemma evolves_refl d : evolves d d.
Proof. unfold evolves. auto with lia. Qed.

Lemma evolves_trans d1 d2 d3 : evolves d1 d2 → evolves d2 d3 → evolves d1 d3.
Proof. unfold evolves. intros (?&?&?&?) (?&?&?&?). repeat split; try congruence. lia. Qed.

Lemma evolves_add_click d : evolves d (add_click d).
Proof. unfold evolves. cbn. auto with lia. Qed.

Lemma run_op_read w o : is_read o = true → run_op w o = w.
Proof. by destruct o. Qed.

Lemma run_op_evolves w o code d :
  record_of w code = Some d →
  ∃ d', record_of (run_op w o) code = Some d' ∧ evolves d d'.
Proof.
  intros Hd. destruct o as [c u now|c|c|c|c]; cbn;
    try (exists d; split; [done | apply evolves_refl]).
  - exists d. split; [|apply evolves_refl].
    apply record_of_Some in Hd as (l & Hl & Hd). apply record_of_Some.
    exists l. split; [|by apply create_keeps_dicts].
    destruct (_urls w !! c) as [l0|] eqn:Hc.
    + by rewrite create_duplicate by eauto.
    + rewrite create_fresh by done. cbn. rewrite lookup_insert_ne; [done|].
      intros ->. congruence.
  - apply record_of_Some in Hd as (l & Hl & Hd). unfold increment_clicks.
    destruct (_urls w !! c) as [lc|] eqn:Hc; cbn.
    + destruct (decide (lc = l)) as [->|Hne].
      * exists (add_click d). split; [|apply evolves_add_click].
        apply record_of_Some. exists l. cbn. by rewrite lookup_alter_eq, Hd.
      * exists d. split; [|apply evolves_refl].
        apply record_of_Some. exists l. cbn. by rewrite lookup_alter_ne.
    + exists d. split; [|apply evolves_refl]. apply record_of_Some. eauto.
Qed.

Lemma run_ops_evolves ops : ∀ w code d,
  record_of w code = Some d →
  ∃ d', record_of (run_ops w ops) code = Some d' ∧ evolves d d'.
Proof.
  induction ops as [|o ops IH]; intros w code d Hd; cbn.
  - exists d. split; [done | apply evolves_refl].
  - destruct (run_op_evolves w o code d Hd) as (d1 & Hd1 & He1).
    destruct (IH _ _ _ Hd1) as (d2 & Hd2 & He2).
    exists d2. split; [done|]. by eapply evolves_trans.
Qed.

Lemma run_ops_read ops : ∀ w, forallb is_read ops = true → run_ops w ops = w.
Proof.
  induction ops as [|o ops IH]; intros w H; [done|].
  cbn in H. apply andb_true_iff in H as [Ho Hops].
  cbn. rewrite run_op_read by done. by apply IH.
Qed.

(** C8. Whatever calls of [create_url_mapping], [get_url_mapping],
    [increment_clicks], [url_exists] and [get_stats] follow, a record of
    the store is still there afterwards, with the URL, the code and the
    creation time it had and with at least as many clicks; and calls that
    only read ([get_url_mapping], [url_exists], [get_stats]) leave the
    whole world as it was, the clicks included. *)
Theorem store_invariant (ops : list Op) w code d :
  record_of w code = Some d →
  (∃ d', record_of (run_ops w ops) code = Some d'
     ∧ original_url d' = original_url d
     ∧ created_at d' = created_at d
     ∧ short_code d' = short_code d
     ∧ (clicks d ≤ clicks d')%Z)
  ∧ (forallb is_read ops = true →
       run_ops w ops = w ∧ get_stats (run_ops w ops) code = get_stats w code).
Proof.
  intros Hd. split.
  - destruct (run_ops_evolves ops w code d Hd) as (d' & Hd' & H1 & H2 & H3 & H4).
    exists d'. auto.
  - intros Hread. by rewrite run_ops_read.
Qed.

Lemma store_invariant_witness :
  record_of demo_world "abc123" = Some (mkUrlData demo_url "abc123" 0 demo_now)
  ∧ ∃ d', record_of (run_ops demo_world
              [IncrementClicks "abc123"; Create "abc123" "http://other.example" "later";
               GetStats "abc123"; Create "xyz789" "http://other.example" "later";
               IncrementClicks "abc123"; Get "abc123"; Exists "abc123"]) "abc123" = Some d'
          ∧ original_url d' = demo_url ∧ (0 ≤ clicks d')%Z.
Proof.
  split; [reflexivity|].
  destruct (store_invariant
              [IncrementClicks "abc123"; Create "abc123" "http://other.example" "later";
               GetStats "abc123"; Create "xyz789" "http://other.example" "later";
               IncrementClicks "abc123"; Get "abc123"; Exists "abc123"]
              demo_world "abc123" (mkUrlData demo_url "abc123" 0 demo_now) eq_refl)
    as [(d' & H1 & H2 & _ & _ & H3) _].
  exists d'. auto.
Defined.

End StoreInvariant.

(** * What [get_url_mapping] hands out *)

Section Aliasing.
Implicit Types (w : World) (code : string) (l : positive) (d : UrlData).

(** The dict returned by [get_url_mapping] is the dict of the table: an
    assignment through it is an assignment to the record of the store, and
    a later click shows in it. *)
Lemma get_url_mapping_alias w code l d v :
  get_url_mapping w code = Some l →
  read_dict w l = Some d →
  record_of (setitem_clicks w l v) code = Some (set_clicks v d)
  ∧ read_dict (snd (increment_clicks w code)) l = Some (add_click d).
Proof.
  unfold get_url_mapping, read_dict. intros Hl Hd. split.
  - apply record_of_Some. exists l. cbn. by rewrite lookup_alter_eq, Hd.
  - unfold increment_clicks. rewrite Hl. cbn. by rewrite lookup_alter_eq, Hd.
Qed.

(** The dict returned by [create_url_mapping] is a copy: an assignment
    through it changes no record of the store. *)
Lemma create_url_mapping_copy w code url now copy w' v :
  well_formed w →
  create_url_mapping w code url now = (inr copy, w') →
  ∀ c, record_of (setitem_clicks w' copy v) c = record_of w' c.
Proof.
  intros Hwf Hrun c.
  unfold record_of. cbn. destruct (_urls w' !! c) as [lc|] eqn:Hlc; [cbn|done].
  destruct (decide (copy = lc)) as [->|Hne]; [|by rewrite lookup_alter_ne].
  exfalso.
  destruct (_urls w !! code) as [l0|] eqn:Hc.
  { rewrite create_duplicate in Hrun by eauto. discriminate. }
  rewrite create_fresh in Hrun by done. injection Hrun as Hcp <-. cbn in *.
  destruct (decide (c = code)) as [->|Hcne].
  - rewrite lookup_insert_eq in Hlc. injection Hlc as Hlc.
    pose proof (fresh_dict_unused
      (<[fresh (dom (dicts w)) := mkUrlData url code 0 now]> (dicts w))) as Hf.
    rewrite Hcp, <- Hlc, lookup_insert_eq in Hf. discriminate.
  - rewrite lookup_insert_ne in Hlc by done.
    destruct (Hwf _ _ Hlc) as (d & Hd & _).
    pose proof (fresh_dict_unused
      (<[fresh (dom (dicts w)) := mkUrlData url code 0 now]> (dicts w))) as Hf.
    rewrite Hcp in Hf. rewrite lookup_insert_ne in Hf; [congruence|].
    intros Heq. rewrite <- Heq in Hd. by rewrite fresh_dict_unused in Hd.
Qed.

(** C1, evaluated on the store that holds ["abc123"] with no click yet.
    The value returned by [get_url_mapping] is the record of the store
    itself: after [d = get_url_mapping("abc123")], the assignment
    [d['clicks'] = 99] makes [get_stats("abc123")] report 99 clicks, and a
    call of [increment_clicks("abc123")] changes [d['clicks']] from 0 to 1. *)
Theorem get_url_mapping_returns_store_record :
  ∃ ref : positive, get_url_mapping demo_world "abc123" = Some ref
    ∧ stats_clicks <$> get_stats demo_world "abc123" = Some 0
    ∧ stats_clicks <$> get_stats (setitem_clicks demo_world ref 99) "abc123" = Some 99
    ∧ clicks <$> read_dict demo_world ref = Some 0
    ∧ clicks <$> read_dict (snd (increment_clicks demo_world "abc123")) ref = Some 1.
Proof. exists 1%positive. vm_compute. repeat split. Qed.

End Aliasing.

(** * The validator *)

Section ValidatorFacts.
Implicit Types (url s t : string) (c : ascii).

Lemma append_cons c s t : String c s +:+ t = String c (s +:+ t).
Proof. reflexivity. Qed.

Lemma prefix_app s : ∀ url, String.prefix s url = true ↔ ∃ t, url = s +:+ t.
Proof.
  induction s as [|a s IH]; intros url.
  - split; [intros _; by exists url | by destruct url].
  - destruct url as [|b url]; cbn.
    + split; [done | by intros [t Ht]].
    + destruct (ascii_dec a b) as [->|Hne].
      * rewrite IH. split; intros [t Ht]; exists t; rewrite append_cons in *; congruence.
      * split; [done|]. intros [t Ht]. rewrite append_cons in Ht. congruence.
Qed.




Lemma validate_url_cases url :
  validate_url url =
    if url =? "" then (false, "URL cannot be empty")
    else if negb (String.prefix "http://" url || String.prefix "https://" url)
    then (false, "URL must start with http:// or https://")
    else match UrlLib.urlparse_netloc url with
         | inl _ => (false, "Invalid URL format")
         | inr netloc =>
             if (String.length netloc <? 3)%nat
             then (false, if netloc =? "" then "Invalid URL format" else "Invalid domain name")
             else (true, "")
         end.
Proof.
  unfold validate_url. destruct (url =? ""); [done|].
  destruct (negb _); [done|].
  destruct (UrlLib.urlparse_netloc url) as [e|netloc]; [done|].
  by destruct netloc as [|a [|b [|c n]]].
Qed.

(** *** A URL followed by whitespace *)

Lemma append_assoc s t u : (s +:+ t) +:+ u = s +:+ (t +:+ u).
Proof. induction s as [|c s IH]; [done|]. by rewrite !append_cons, IH. Qed.

Lemma length_append s t : String.length (s +:+ t) = (String.length s + String.length t)%nat.
Proof. induction s as [|c s IH]; [done|]. rewrite append_cons. cbn. by rewrite IH. Qed.

Lemma remove_chars_append p s t :
  Str.remove_chars p (s +:+ t) = Str.remove_chars p s +:+ Str.remove_chars p t.
Proof.
  induction s as [|c s IH]; [done|]. rewrite append_cons. cbn.
  destruct (p c); by rewrite ?append_cons, IH.
Qed.

Lemma remove_chars_all p q t :
  Str.all q t = true → Str.all q (Str.remove_chars p t) = true.
Proof.
  induction t as [|c t IH]; [done|]. cbn. intros [Hc Ht]%andb_true_iff.
  destruct (p c); cbn; rewrite ?Hc; auto.
Qed.

Lemma isspace_neutral c : Str.isspace c = true → neutral c = true.
Proof. destruct c as [[] [] [] [] [] [] [] []]; by vm_compute. Qed.

Lemma all_isspace_neutral t : Str.all Str.isspace t = true → Str.all neutral t = true.
Proof.
  induction t as [|c t IH]; [done|]. cbn. intros [Hc Ht]%andb_true_iff.
  by rewrite isspace_neutral, IH.
Qed.

Lemma take_until_neutral t :
  Str.all neutral t = true → Str.take_until UrlLib.netloc_delim t = t.
Proof.
  induction t as [|c t IH]; [done|]. cbn. intros [Hc Ht]%andb_true_iff.
  unfold neutral in Hc. destruct (UrlLib.netloc_delim c); [done|]. by rewrite IH.
Qed.

Lemma take_until_append s t :
  Str.all neutral t = true →
  ∃ t', Str.take_until UrlLib.netloc_delim (s +:+ t)
        = Str.take_until UrlLib.netloc_delim s +:+ t'
        ∧ Str.all neutral t' = true.
Proof.
  intros Ht. induction s as [|c s (t' & IH & Ht')].
  - exists t. by rewrite take_until_neutral.
  - rewrite append_cons. cbn. destruct (UrlLib.netloc_delim c).
    + by exists "".
    + exists t'. by rewrite IH.
Qed.

Lemma contains_neutral a t :
  (a = "["%char ∨ a = "]"%char) →
  Str.all neutral t = true → Str.contains a t = false.
Proof.
  intros Ha. induction t as [|c t IH]; [done|]. cbn.
  intros [Hc Ht]%andb_true_iff. rewrite (IH Ht), orb_false_r.
  unfold neutral in Hc. apply andb_true_iff in Hc as [[_ H1]%andb_true_iff H2].
  apply negb_true_iff in H1, H2. by destruct Ha as [->| ->].
Qed.

Lemma contains_append_neutral a s t :
  (a = "["%char ∨ a = "]"%char) →
  Str.all neutral t = true → Str.contains a (s +:+ t) = Str.contains a s.
Proof.
  intros Ha Ht. induction s as [|c s IH].
  - by apply contains_neutral.
  - rewrite append_cons. cbn. by rewrite IH.
Qed.

Lemma check_brackets_inr netloc n :
  UrlLib.check_brackets netloc = inr n → n = netloc.
Proof.
  unfold UrlLib.check_brackets. destruct (_ || _); [done|].
  destruct (_ && _); congruence.
Qed.

Lemma check_brackets_plain netloc :
  Str.contains "[" netloc = false → Str.contains "]" netloc = false →
  UrlLib.check_brackets netloc = inr netloc.
Proof. intros H1 H2. unfold UrlLib.check_brackets. by rewrite H1, H2. Qed.

Lemma contains_has a s : Str.contains a s = has a s.
Proof.
  unfold has, chars. induction s as [|c s IH]; [done|]. cbn.
  by rewrite IH, (Ascii.eqb_sym c a).
Qed.


Lemma contains_append a s t :
  Str.contains a (s +:+ t) = Str.contains a s || Str.contains a t.
Proof.
  induction s as [|c s IH]; [done|]. rewrite append_cons. cbn.
  by rewrite IH, orb_assoc.
Qed.

Lemma contains_remove_chars a p s :
  Str.contains a s = false → Str.contains a (Str.remove_chars p s) = false.
Proof.
  induction s as [|c s IH]; [done|]. cbn. intros [Hc Hs]%orb_false_iff.
  destruct (p c); cbn; rewrite ?Hc; auto.
Qed.

Lemma contains_take_until a p s :
  Str.contains a s = false → Str.contains a (Str.take_until p s) = false.
Proof.
  induction s as [|c s IH]; [done|]. cbn. intros [Hc Hs]%orb_false_iff.
  destruct (p c); cbn; rewrite ?Hc; auto.
Qed.

Lemma urlparse_netloc_http rest :
  UrlLib.urlparse_netloc ("http://" +:+ rest)
  = UrlLib.check_brackets
      (Str.take_until UrlLib.netloc_delim (Str.remove_chars UrlLib.unsafe_byte rest)).
Proof. reflexivity. Qed.

Lemma urlparse_netloc_https rest :
  UrlLib.urlparse_netloc ("https://" +:+ rest)
  = UrlLib.check_brackets
      (Str.take_until UrlLib.netloc_delim (Str.remove_chars UrlLib.unsafe_byte rest)).
Proof. reflexivity. Qed.

Lemma validate_url_true url :
  validate_url url = (true, "") ↔
  (String.prefix "http://" url || String.prefix "https://" url = true)
  ∧ ∃ netloc, UrlLib.urlparse_netloc url = inr netloc ∧ (3 ≤ String.length netloc)%nat.
Proof.
  rewrite validate_url_cases. destruct (String.eqb_spec url "") as [->|Hne].
  { split; [done | by intros [? _]]. }
  destruct (String.prefix "http://" url || String.prefix "https://" url); cbn [negb].
  2:{ split; [done | by intros [? _]]. }
  destruct (UrlLib.urlparse_netloc url) as [e|netloc].
  { split; [done | by intros (_ & ? & ? & _)]. }
  destruct (Nat.ltb_spec (String.length netloc) 3) as [Hlt|Hge].
  - split; [done|]. intros (_ & n & [= <-] & ?). lia.
  - split; [eauto|done].
Qed.

(** *** The verdict in terms of the text of the input *)













(** The parser's check of a host in brackets, on four inputs. *)
Example validate_url_bracketed_hosts :
  validate_url "http://[::1]:8080/x" = (true, "")
  ∧ validate_url "http://[v1.example]" = (true, "")
  ∧ validate_url "http://[abc]" = (false, "Invalid URL format")
  ∧ validate_url "http://[127.0.0.1]" = (false, "Invalid URL format").
Proof. by vm_compute. Qed.

Lemma urlparse_netloc_trailing rest netloc t :
  Str.all neutral t = true →
  Str.contains "[" rest = false → Str.contains "]" rest = false →
  UrlLib.check_brackets
    (Str.take_until UrlLib.netloc_delim (Str.remove_chars UrlLib.unsafe_byte rest))
  = inr netloc →
  ∃ t', UrlLib.check_brackets
          (Str.take_until UrlLib.netloc_delim
             (Str.remove_chars UrlLib.unsafe_byte (rest +:+ t)))
        = inr (netloc +:+ t').
Proof.
  intros Ht H1 H2 Hn. pose proof (check_brackets_inr _ _ Hn) as ->.
  rewrite remove_chars_append.
  destruct (take_until_append (Str.remove_chars UrlLib.unsafe_byte rest)
              (Str.remove_chars UrlLib.unsafe_byte t)) as (t' & -> & Ht').
  { by apply remove_chars_all. }
  exists t'. apply check_brackets_plain.
  - rewrite contains_append_neutral by auto.
    by apply contains_take_until, contains_remove_chars.
  - rewrite contains_append_neutral by auto.
    by apply contains_take_until, contains_remove_chars.
Qed.

Lemma validate_url_trailing url ws :
  Str.contains "[" url = false → Str.contains "]" url = false →
  Str.all Str.isspace ws = true →
  validate_url url = (true, "") → validate_url (url +:+ ws) = (true, "").
Proof.
  intros H1 H2 Hws%all_isspace_neutral. rewrite !validate_url_true.
  intros (Hp & netloc & Hn & Hlen).
  assert (∃ t', UrlLib.urlparse_netloc (url +:+ ws) = inr (netloc +:+ t')
                ∧ (String.prefix "http://" (url +:+ ws)
                   || String.prefix "https://" (url +:+ ws) = true))
    as (t' & Hn' & Hp').
  { apply orb_true_iff in Hp as [Hp|Hp]; apply prefix_app in Hp as [rest ->];
      rewrite contains_append in H1, H2;
      apply orb_false_iff in H1 as [_ H1]; apply orb_false_iff in H2 as [_ H2];
      rewrite append_assoc.
    - rewrite urlparse_netloc_http in Hn |- *.
      destruct (urlparse_netloc_trailing rest netloc ws Hws H1 H2 Hn) as [t' Ht'].
      exists t'. split; [done|]. apply orb_true_iff. left. apply prefix_app. eauto.
    - rewrite urlparse_netloc_https in Hn |- *.
      destruct (urlparse_netloc_trailing rest netloc ws Hws H1 H2 Hn) as [t' Ht'].
      exists t'. split; [done|]. apply orb_true_iff. right. apply prefix_app. eauto. }
  split; [done|]. exists (netloc +:+ t'). split; [done|]. rewrite length_append. lia.
Qed.

Lemma validate_url_leading_space c s :
  Str.isspace c = true →
  validate_url (String c s) = (false, "URL must start with http:// or https://").
Proof.
  intros Hc. rewrite validate_url_cases. cbn [String.eqb].
  destruct (String.prefix "http://" (String c s)
            || String.prefix "https://" (String c s)) eqn:Hp; [|done].
  apply orb_true_iff in Hp as [Hp|Hp]; apply prefix_app in Hp as [t Ht];
    rewrite append_cons in Ht; injection Ht as -> _; discriminate.
Qed.

(** C10. [validate_url] checks the string as it is given.  A string that
    begins with a whitespace character is rejected by the prefix check,
    also when its trimmed form is accepted.  Whitespace after an accepted
    URL leaves it accepted, although [sanitize_url] would remove it: so for
    ["http://example.com "], and for every accepted URL without brackets
    (a host in brackets has to be an IP literal, and a space after the
    closing bracket makes the parser reject it). *)
Theorem validate_url_does_not_trim :
  (∀ c s, Str.isspace c = true →
     validate_url (String c s) = (false, "URL must start with http:// or https://"))
  ∧ (validate_url " http://example.com" = (false, "URL must start with http:// or https://")
     ∧ validate_url (sanitize_url " http://example.com") = (true, ""))
  ∧ (validate_url "http://example.com " = (true, "")
     ∧ sanitize_url "http://example.com " ≠ "http://example.com ")
  ∧ (∀ url ws, Str.contains "[" url = false → Str.contains "]" url = false →
       Str.all Str.isspace ws = true →
       validate_url url = (true, "") → validate_url (url +:+ ws) = (true, "")).
Proof.
  split; [exact validate_url_leading_space|].
  split; [by vm_compute|].
  split; [by vm_compute|].
  exact validate_url_trailing.
Qed.

Lemma validate_url_does_not_trim_witness :
  Str.isspace " " = true
  ∧ validate_url " http://example.com" = (false, "URL must start with http:// or https://")
  ∧ Str.all Str.isspace "  " = true
  ∧ validate_url "http://example.com" = (true, "")
  ∧ validate_url "http://example.com  " = (true, "").
Proof.
  destruct validate_url_does_not_trim as (Hlead & _ & _ & Htrail).
  split; [reflexivity|].
  split; [exact (Hlead " "%char "http://example.com" eq_refl)|].
  split; [reflexivity|].
  split; [reflexivity|].
  exact (Htrail "http://example.com" "  " eq_refl eq_refl eq_refl eq_refl).
Defined.

End ValidatorFacts.

(** * The code generator *)

Section GeneratorFacts.
Implicit Types (w : World) (r : RandomState) (n k : nat) (c : ascii) (s : string).

Lemma get_contains s : ∀ i c, String.get i s = Some c → Str.contains c s = true.
Proof.
  induction s as [|a s IH]; intros [|i] c H; cbn in *; try done.
  - injection H as ->. by rewrite Ascii.eqb_refl.
  - rewrite (IH _ _ H). apply orb_true_r.
Qed.

Lemma get_in_range s : ∀ i, (i < String.length s)%nat → is_Some (String.get i s).
Proof.
  induction s as [|a s IH]; intros [|i] H; cbn in *; try lia; [eauto|].
  apply IH. lia.
Qed.

Lemma characters_alnum c : Str.contains c characters = is_alnum c.
Proof. destruct c as [[] [] [] [] [] [] [] []]; by vm_compute. Qed.

Lemma characters_length : String.length characters = 62%nat.
Proof. reflexivity. Qed.

Lemma choice_alnum r : is_alnum (fst (choice characters r)) = true.
Proof.
  unfold choice, randbelow. cbn [fst].
  destruct (get_in_range characters (tape r (cursor r) mod String.length characters))
    as [c Hc].
  { apply Nat.mod_upper_bound. by rewrite characters_length. }
  rewrite Hc. cbn. rewrite <- characters_alnum. by eapply get_contains.
Qed.

Lemma choice_state r :
  snd (choice characters r) = mkRandom (tape r) (S (cursor r)).
Proof. reflexivity. Qed.

Lemma generate_short_code_spec n : ∀ r,
  String.length (fst (generate_short_code n r)) = n
  ∧ Str.all is_alnum (fst (generate_short_code n r)) = true
  ∧ snd (generate_short_code n r) = mkRandom (tape r) (cursor r + n).
Proof.
  induction n as [|n IH]; intros r.
  - cbn. rewrite Nat.add_0_r. by destruct r.
  - cbn [generate_short_code].
    pose proof (choice_alnum r) as Ha. pose proof (choice_state r) as Hs.
    destruct (choice characters r) as [c r1]. cbn in Ha, Hs. subst r1.
    destruct (IH (mkRandom (tape r) (S (cursor r)))) as (Hl & Hal & Hst).
    destruct (generate_short_code n _) as [s r2]. cbn in *.
    rewrite Hl, Ha, Hal, Hst. repeat split. f_equal. lia.
Qed.

Lemma unique_loop_spec w length exn n : ∀ r,
  fst (unique_loop w length n exn r)
  = match List.find (λ code, negb (url_exists w code)) (candidates length n r) with
    | Some code => inr code
    | None => inl exn
    end
  ∧ ∃ k, (k ≤ n)%nat
      ∧ snd (unique_loop w length n exn r) = mkRandom (tape r) (cursor r + k * length)
      ∧ (∀ j code, (j < k - 1)%nat → candidates length n r !! j = Some code →
           url_exists w code = true)
      ∧ match fst (unique_loop w length n exn r) with
        | inr code => (0 < k)%nat ∧ candidates length n r !! (k - 1)%nat = Some code
                      ∧ url_exists w code = false
        | inl _ => k = n ∧ Forall (λ code, url_exists w code = true) (candidates length n r)
        end.
Proof.
  induction n as [|n IH]; intros r.
  - cbn. split; [done|]. exists 0%nat. rewrite Nat.add_0_r.
    split; [lia|]. split; [by destruct r|]. split; [intros; lia|]. split; [done|constructor].
  - cbn [unique_loop candidates].
    destruct (generate_short_code_spec length r) as (_ & _ & Hst).
    destruct (generate_short_code length r) as [code r1]. cbn in Hst. subst r1.
    cbn [List.find]. destruct (url_exists w code) eqn:Hex; cbn [negb].
    + destruct (IH (mkRandom (tape r) (cursor r + length))) as (Hfind & k & Hk & Hsnd & Hbefore & Hres).
      split; [done|]. exists (S k). split; [lia|]. split.
      { rewrite Hsnd. cbn. f_equal. lia. }
      split.
      { intros [|j] code0 Hj Hc; cbn in Hc; [congruence|]. apply (Hbefore j); [lia|done]. }
      destruct (fst (unique_loop w length n exn _)) as [e|code1].
      * destruct Hres as [-> Hall]. split; [done|]. by constructor.
      * destruct Hres as (Hpos & Hc & Hnew). split; [lia|]. split; [|done].
        replace (S k - 1)%nat with (S (k - 1)) by lia. done.
    + cbn. split; [done|]. exists 1%nat. split; [lia|]. split.
      { f_equal. lia. }
      split; [intros; lia|]. split; [lia|]. by split.
Qed.

(** C6. [generate_unique_short_code] returns the first of the candidates
    it generates that is not in the store, and raises its [RuntimeError]
    when all [max_attempts] candidates are in the store.  It generates
    [attempts] candidates, never more than [max_attempts]: every one before
    the last is in the store, and the random source has moved by exactly
    [attempts] codes. *)
Theorem generate_unique_short_code_spec w length max_attempts r :
  let cands := candidates length max_attempts r in
  let res := generate_unique_short_code w length max_attempts r in
  fst res
  = match List.find (λ code, negb (url_exists w code)) cands with
    | Some code => inr code
    | None => inl (RuntimeError (unable_to_generate max_attempts))
    end
  ∧ ∃ attempts, (attempts ≤ max_attempts)%nat
      ∧ snd res = mkRandom (tape r) (cursor r + attempts * length)
      ∧ (∀ j code, (j < attempts - 1)%nat → cands !! j = Some code →
           url_exists w code = true)
      ∧ match fst res with
        | inr code => (0 < attempts)%nat ∧ cands !! (attempts - 1)%nat = Some code
                      ∧ url_exists w code = false
        | inl _ => attempts = max_attempts
                   ∧ Forall (λ code, url_exists w code = true) cands
        end.
Proof. apply unique_loop_spec. Qed.

Lemma generate_unique_short_code_spec_witness :
  List.find (λ code, negb (url_exists taken_world code)) (candidates 6 10 demo_random)
  = Some "T07els"
  ∧ fst (generate_unique_short_code taken_world 6 10 demo_random) = inr "T07els".
Proof.
  assert (List.find (λ code, negb (url_exists taken_world code))
            (candidates 6 10 demo_random) = Some "T07els") as Hfind by by vm_compute.
  split; [exact Hfind|].
  pose proof (generate_unique_short_code_spec taken_world 6 10 demo_random) as H.
  cbv zeta in H. destruct H as [H _]. rewrite H, Hfind. reflexivity.
Defined.

(** The first candidate is taken, the second is returned. *)
Example generate_unique_short_code_skips :
  candidates 6 2 demo_random = ["dkryFM"; "T07els"]
  ∧ url_exists taken_world "dkryFM" = true
  ∧ generate_unique_short_code taken_world 6 10 demo_random
    = (inr "T07els", mkRandom demo_tape 12).
Proof. by vm_compute. Qed.

(** A source that yields the one code of the store again and again. *)
Example generate_unique_short_code_exhausted :
  generate_unique_short_code stuck_world 6 10 stuck_random
  = (inl (RuntimeError "Unable to generate unique short code after 10 attempts"),
     mkRandom (λ _, 0%nat) 60).
Proof. by vm_compute. Qed.

End GeneratorFacts.


(** * Shortening and resolving *)

Section Services.
Implicit Types (w : World) (r : RandomState) (code raw now : string).

Lemma default_short_url code :
  format_short_url code default_base_url = "http://localhost:5000/" +:+ code.
Proof. reflexivity. Qed.

Lemma generated_code_is_new w length max_attempts r code r1 :
  generate_unique_short_code w length max_attempts r = (inr code, r1) →
  _urls w !! code = None
  ∧ String.length code = length
  ∧ Str.all is_alnum code = true.
Proof.
  intros Hgen.
  destruct (unique_loop_spec w length (RuntimeError (unable_to_generate max_attempts))
              max_attempts r) as (_ & k & _ & _ & _ & Hres).
  fold (generate_unique_short_code w length max_attempts r) in Hres.
  rewrite Hgen in Hres. cbn in Hres. destruct Hres as (Hk & Hc & Hnew).
  split; [by apply url_exists_false|].
  clear Hgen Hnew. revert r Hc. generalize (k - 1)%nat as j. clear k Hk.
  induction max_attempts as [|n IH]; intros j r Hc; [done|].
  cbn [candidates] in Hc.
  pose proof (generate_short_code_spec length r) as (Hl & Ha & _).
  destruct (generate_short_code length r) as [c0 r0]. destruct j as [|j].
  - injection Hc as <-. done.
  - by apply (IH j r0).
Qed.

(** [shorten_url] on a JSON object whose member [url] is a string. *)
Lemma shorten_url_posted req now w r members raw :
  is_json req = true →
  get_json req = inr (JObject members) →
  members !! "url" = Some (JString raw) →
  shorten_url req now w r
  = let original_url := sanitize_url raw in
    if fst (validate_url original_url) then
      match generate_unique_short_code w default_length default_max_attempts r with
      | (inl _, r1) =>
          (Json (ErrorBody "Unable to generate short code. Please try again.") 500, w, r1)
      | (inr code, r1) =>
          (Json (ShortenBody code ("http://localhost:5000/" +:+ code)) 201,
           snd (create_url_mapping w code original_url now), r1)
      end
    else (Json (ErrorBody (snd (validate_url original_url))) 400, w, r).
Proof.
  intros Hjson Hget Hurl. unfold shorten_url. rewrite Hjson, Hget. cbn [negb].
  assert (truthy (JObject members) = true) as ->.
  { cbn. destruct (map_to_list members) eqn:Hl; [|done].
    apply map_to_list_empty_iff in Hl. by rewrite Hl, lookup_empty in Hurl. }
  cbn [negb contains_url getitem_url]. rewrite Hurl. cbn [sanitize_value]. cbn zeta.
  destruct (validate_url (sanitize_url raw)) as [[] msg]; cbn [negb fst snd]; [|done].
  destruct (generate_unique_short_code w default_length default_max_attempts r)
    as [[e|code] r1] eqn:Hgen; [done|].
  apply generated_code_is_new in Hgen as (Hnew & _).
  rewrite create_fresh by done. by rewrite default_short_url.
Qed.

(** [shorten] in one case distinction. *)
Lemma shorten_cases raw now w r :
  shorten raw now w r
  = let original_url := sanitize_url raw in
    if fst (validate_url original_url) then
      match generate_unique_short_code w default_length default_max_attempts r with
      | (inl _, r1) =>
          (Json (ErrorBody "Unable to generate short code. Please try again.") 500, w, r1)
      | (inr code, r1) =>
          (Json (ShortenBody code ("http://localhost:5000/" +:+ code)) 201,
           snd (create_url_mapping w code original_url now), r1)
      end
    else (Json (ErrorBody (snd (validate_url original_url))) 400, w, r).
Proof.
  unfold shorten. apply (shorten_url_posted _ _ _ _ {[ "url" := JString raw ]}); [done..|].
  apply lookup_singleton_eq.
Qed.

(** [redirect] answers with the location it is given when that has no
    carriage return and no line feed, and raises otherwise. *)
Lemma redirect_single_line location (status : nat) :
  redirect location status
  = if single_line location then inr (Redirect location status)
    else inl (ValueError "Header values must not contain newline characters.").
Proof.
  unfold redirect, single_line. rewrite !contains_has.
  by destruct (has "013" location), (has "010" location).
Qed.

(** [redirect_to_url] on a code whose record is [d]: the click is counted,
    then [redirect] decides between the 302 and the 500. *)
Lemma redirect_to_url_found w code d :
  record_of w code = Some d →
  redirect_to_url code w
  = (if single_line (original_url d) then Redirect (original_url d) 302
     else internal_server_error,
     snd (increment_clicks w code)).
Proof.
  intros Hrec. apply record_of_Some in Hrec as (l & Hl & Hd).
  unfold redirect_to_url, get_url_mapping. rewrite Hl.
  unfold increment_clicks, read_dict. rewrite Hl. cbn [dicts snd].
  rewrite lookup_alter_eq, Hd. cbn [fmap option_fmap option_map add_click original_url].
  rewrite redirect_single_line. by destruct (single_line (original_url d)).
Qed.

(** C9. When [shorten] succeeds, for a valid URL as for any input, the
    short code has the fixed length 6, each of its characters is a letter
    or a digit, one of the 62 symbols of [characters], the short URL is the
    base [http://localhost:5000], a slash and the code, and the status is
    201; the URL that was stored had passed the validator.  For any other
    length, [generate_short_code] yields a code of that length over the
    same alphabet. *)
Theorem shorten_code_format raw now w r code short_url status w' r' :
  shorten raw now w r = (Json (ShortenBody code short_url) status, w', r') →
  String.length code = default_length
  ∧ default_length = 6%nat
  ∧ Str.all is_alnum code = true
  ∧ (∀ c, is_alnum c = Str.contains c characters)
  ∧ String.length characters = 62%nat
  ∧ short_url = default_base_url +:+ "/" +:+ code
  ∧ default_base_url = "http://localhost:5000"
  ∧ status = 201%nat
  ∧ validate_url (sanitize_url raw) = (true, "")
  ∧ (∀ length r0,
       String.length (fst (generate_short_code length r0)) = length
       ∧ Str.all is_alnum (fst (generate_short_code length r0)) = true).
Proof.
  rewrite shorten_cases. cbn zeta. intros H.
  destruct (validate_url (sanitize_url raw)) as [[] msg] eqn:Hv; cbn [fst snd] in H;
    [|discriminate].
  destruct (generate_unique_short_code w default_length default_max_attempts r)
    as [[e|code0] r1] eqn:Hgen; [discriminate|].
  injection H as -> <- <- <- <-.
  apply generated_code_is_new in Hgen as (_ & Hlen & Hal).
  repeat split; try done;
    try (by destruct (generate_short_code_spec length r0) as (? & ? & _)).
  - intros c. symmetry. apply characters_alnum.
  - f_equal. unfold validate_url in Hv.
    repeat match type of Hv with
           | context [if ?b then _ else _] => destruct b; try discriminate
           | context [match ?x with inl _ => _ | inr _ => _ end] =>
               destruct x; try discriminate
           end.
    congruence.
Qed.

(** C3, amended. When [shorten] succeeds on [raw] with code [code], the
    record holds the sanitized URL, [raw] without its leading and trailing
    whitespace, and no click; [resolve] of that code leaves the record
    with exactly one click, and it redirects to the sanitized URL when
    that has no carriage return and no line feed, hence to [raw] itself
    when [raw] has no whitespace around it either. *)
Theorem shorten_resolve_round_trip raw now w r code short_url status w' r' :
  shorten raw now w r = (Json (ShortenBody code short_url) status, w', r') →
  ∃ w'' d d',
    snd (resolve code w') = w''
    ∧ (single_line (sanitize_url raw) = true →
         resolve code w' = (Redirect (sanitize_url raw) 302, w''))
    ∧ record_of w' code = Some d
    ∧ original_url d = sanitize_url raw
    ∧ clicks d = 0
    ∧ record_of w'' code = Some d'
    ∧ clicks d' = clicks d + 1
    ∧ (single_line raw = true → sanitize_url raw = raw →
         fst (resolve code w') = Redirect raw 302).
Proof.
  rewrite shorten_cases. cbn zeta. intros H.
  destruct (fst (validate_url (sanitize_url raw))); [|discriminate].
  destruct (generate_unique_short_code w default_length default_max_attempts r)
    as [[e|code0] r1] eqn:Hgen; [discriminate|].
  injection H as -> _ _ <- _.
  apply generated_code_is_new in Hgen as (Hnew & _).
  set (d := mkUrlData (sanitize_url raw) code 0 now).
  pose proof (create_record_same w code (sanitize_url raw) now Hnew) as Hrec.
  set (w1 := snd (create_url_mapping w code (sanitize_url raw) now)) in *.
  pose proof (increment_record_same w1 code d Hrec) as Hinc.
  pose proof (redirect_to_url_found w1 code d Hrec) as Hres.
  fold (resolve code w1) in Hres. cbn [original_url d] in Hres.
  exists (snd (increment_clicks w1 code)), d, (add_click d).
  rewrite Hres. cbn [fst snd]. repeat split; try done.
  - by intros ->.
  - intros Hline Heq. by rewrite Heq, Hline.
Qed.

(** A URL with a line feed inside passes the validator and is stored;
    following its code counts the click and then fails in [redirect]. *)
Example resolve_fails_on_line_feed :
  let raw := "http://a.example/x" +:+ String "010" "y" in
  let res := shorten raw demo_now empty_world demo_random in
  fst (fst res) = Json (ShortenBody "dkryFM" "http://localhost:5000/dkryFM") 201
  ∧ fst (resolve "dkryFM" (snd (fst res))) = internal_server_error
  ∧ clicks <$> record_of (snd (resolve "dkryFM" (snd (fst res)))) "dkryFM" = Some 1.
Proof. by vm_compute. Qed.

Lemma shorten_code_format_witness :
  shorten demo_url demo_now empty_world demo_random
  = (Json (ShortenBody "dkryFM" "http://localhost:5000/dkryFM") 201,
     snd (fst (shorten demo_url demo_now empty_world demo_random)),
     snd (shorten demo_url demo_now empty_world demo_random))
  ∧ String.length "dkryFM" = 6%nat
  ∧ Str.all is_alnum "dkryFM" = true.
Proof.
  split; [reflexivity|].
  destruct (shorten_code_format demo_url demo_now empty_world demo_random
              "dkryFM" "http://localhost:5000/dkryFM" 201
              (snd (fst (shorten demo_url demo_now empty_world demo_random)))
              (snd (shorten demo_url demo_now empty_world demo_random))
              eq_refl) as (H1 & _ & H2 & _).
  split; [exact H1 | exact H2].
Defined.

Lemma shorten_resolve_round_trip_witness :
  shorten " http://example.com " demo_now empty_world demo_random
  = (Json (ShortenBody "dkryFM" "http://localhost:5000/dkryFM") 201,
     snd (fst (shorten " http://example.com " demo_now empty_world demo_random)),
     snd (shorten " http://example.com " demo_now empty_world demo_random))
  ∧ fst (resolve "dkryFM"
           (snd (fst (shorten " http://example.com " demo_now empty_world demo_random))))
    = Redirect "http://example.com" 302.
Proof.
  split; [reflexivity|].
  destruct (shorten_resolve_round_trip " http://example.com " demo_now empty_world
              demo_random "dkryFM" "http://localhost:5000/dkryFM" 201
              (snd (fst (shorten " http://example.com " demo_now empty_world demo_random)))
              (snd (shorten " http://example.com " demo_now empty_world demo_random))
              eq_refl) as (w'' & d & d' & _ & H & _).
  rewrite (H eq_refl). reflexivity.
Defined.

(** C3 as stated fails on a URL that the validator accepts with a space
    at its end: the code resolves to the URL without the space. *)
Lemma round_trip_fails_on_trailing_space :
  validate_url "http://example.com " = (true, "")
  ∧ ∃ code short_url w' r',
      shorten "http://example.com " demo_now empty_world demo_random
      = (Json (ShortenBody code short_url) 201, w', r')
      ∧ fst (resolve code w') = Redirect "http://example.com" 302
      ∧ fst (resolve code w') ≠ Redirect "http://example.com " 302.
Proof.
  split; [reflexivity|].
  eexists _, _, _, _. split; [reflexivity|]. by vm_compute.
Qed.

End Services.


(** * Threads and the lock *)

Section ThreadFacts.
Local Open Scope list_scope.
Implicit Types (w : World) (o : Op) (t : Thread) (s : System) (hist : list nat).

Lemma call_well_formed w o : well_formed w → well_formed (snd (call w o)).
Proof.
  intros Hwf. destruct o as [c u now|c|c|c|c]; cbn; try done.
  - pose proof (create_well_formed w c u now Hwf) as H.
    by destruct (create_url_mapping w c u now) as [[e|l] w'].
  - pose proof (increment_well_formed w c Hwf) as H.
    by destruct (increment_clicks w c) as [b w'].
Qed.

Lemma inside_step w_pre o t w lk w' lk' t' :
  well_formed w_pre →
  inside w_pre o t w →
  is_done t = false → (∀ r, t ≠ Exit r) →
  thread_step w lk t = Some (w', lk', t') →
  lk' = lk ∧ critical t' = true ∧ inside w_pre o t' w'.
Proof.
  intros Hwf Hin Hnd Hne Hstep. destruct t as [o'|o'|c|c l tmp|c u now|c u now l|c u now l|r|r];
    cbn in Hin; try done.
  - destruct Hin as [-> ->]. destruct o as [c u now|c|c|c|c]; cbn in Hstep.
    + destruct (_urls w_pre !! c) as [l|] eqn:Hc; injection Hstep as <- <- <-;
        (split; [done|]); (split; [done|]); cbn.
      * by rewrite create_duplicate by eauto.
      * done.
    + by injection Hstep as <- <- <-.
    + destruct (_urls w_pre !! c) as [l|] eqn:Hc; injection Hstep as <- <- <-;
        (split; [done|]); (split; [done|]); cbn.
      * rewrite Hc. eauto.
      * unfold increment_clicks. by rewrite Hc.
    + by injection Hstep as <- <- <-.
    + by injection Hstep as <- <- <-.
  - destruct Hin as (-> & -> & [l Hl]). cbn in Hstep. rewrite Hl in Hstep.
    destruct (Hwf _ _ Hl) as (d & Hd & _). rewrite Hd in Hstep.
    injection Hstep as <- <- <-. cbn. eauto 10.
  - destruct Hin as (-> & -> & Hl & d & Hd & ->). cbn in Hstep.
    injection Hstep as <- <- <-. split; [done|]. split; [done|]. cbn.
    unfold increment_clicks. rewrite Hl. do 2 f_equal.
    apply alter_ext. intros d' Hd'. by simplify_eq.
  - destruct Hin as (-> & -> & Hc). cbn in Hstep.
    injection Hstep as <- <- <-. by cbn.
  - destruct Hin as (-> & Hc & -> & ->). cbn in Hstep.
    injection Hstep as <- <- <-. by cbn.
  - destruct Hin as (-> & Hc & -> & ->). cbn in Hstep.
    rewrite lookup_insert_eq in Hstep. injection Hstep as <- <- <-.
    split; [done|]. split; [done|]. cbn. by rewrite create_fresh.
  - by destruct (Hne r).
Qed.

Lemma seq_world_snoc w0 calls h i :
  seq_world w0 calls (h ++ [i]) = seq_step calls (seq_world w0 calls h) i.
Proof. unfold seq_world. by rewrite foldl_app. Qed.

Lemma seq_world_well_formed calls h : ∀ w0,
  well_formed w0 → well_formed (seq_world w0 calls h).
Proof.
  induction h as [|i h IH]; intros w0 Hwf; [done|].
  cbn. apply IH. unfold seq_step. destruct (calls !! i); [|done].
  by apply call_well_formed.
Qed.

Lemma thread_ok_critical w0 calls hist s i t :
  critical t = true →
  thread_ok w0 calls hist s i t ↔
  (locked s = true
   ∧ ∃ h o, hist = h ++ [i] ∧ calls !! i = Some o
       ∧ inside (seq_world w0 calls h) o t (world s)).
Proof. by destruct t. Qed.

(** A thread that did not move keeps its place in the history. *)
Lemma thread_ok_other w0 calls hist s s' j t :
  critical t = false →
  thread_ok w0 calls hist s j t → thread_ok w0 calls hist s' j t.
Proof. by destruct t. Qed.

Lemma thread_step_critical w lk t :
  critical t = true → is_Some (thread_step w lk t).
Proof.
  destruct t as [o|o|c|c l tmp|c u now|c u now l|c u now l|r|r]; cbn; try done;
    try (by eexists).
  - destruct o; cbn; repeat case_match; by eexists.
  - repeat case_match; by eexists.
  - repeat case_match; by eexists.
Qed.

Lemma thread_step_budget w lk t w' lk' t' :
  thread_step w lk t = Some (w', lk', t') → (steps_left t' < steps_left t)%nat.
Proof.
  destruct t as [o|o|c|c l tmp|c u now|c u now l|c u now l|r|r]; cbn;
    try destruct o; cbn; repeat case_match; intros [= <- <- <-]; cbn; lia.
Qed.

Lemma step_invariant w0 calls hist s i s' :
  well_formed w0 →
  invariant w0 calls hist s →
  step i s = Some s' →
  ∃ hist', invariant w0 calls hist' s'.
Proof.
  intros Hwf [Hnd Hrange Hfree Hheld Hth Hlen] Hstep. unfold step in Hstep.
  destruct (threads s !! i) as [t|] eqn:Ht; [|done].
  destruct (thread_step (world s) (locked s) t) as [[[w' lk'] t']|] eqn:Hts; [|done].
  injection Hstep as <-.
  pose proof (Hth _ _ Ht) as Hok.
  pose proof (lookup_lt_Some _ _ _ Ht) as Hi.
  assert (∀ j tj, critical tj = true → threads s !! j = Some tj →
            locked s = true ∧ ∃ h, hist = h ++ [j]) as Hcrit.
  { intros j tj Hc Hj. apply Hth in Hj. apply thread_ok_critical in Hj; [|done].
    destruct Hj as (? & h & o & ? & _). eauto. }
  destruct (critical t) eqn:Hct.
  - (* inside the critical section *)
    apply thread_ok_critical in Hok as (Hlk & h & o & -> & Ho & Hin); [|done].
    assert (∀ j tj, j ≠ i → threads s !! j = Some tj → critical tj = false) as Hothers.
    { intros j tj Hne Hj. destruct (critical tj) eqn:Hc; [|done].
      destruct (Hcrit _ _ Hc Hj) as (_ & h' & Heq).
      apply app_inj_tail in Heq as [_ ->]. done. }
    assert (well_formed (seq_world w0 calls h)) as Hwfh
      by by apply seq_world_well_formed.
    assert ((∃ r, t = Exit r) ∨ ∀ r, t ≠ Exit r) as [[r ->]|Hne]
      by (destruct t; eauto).
    + (* the lock is released *)
      cbn in Hts. injection Hts as <- <- <-. cbn in Hin.
      exists (h ++ [i]). split; cbn; try done.
      * intros _. rewrite seq_world_snoc. unfold seq_step. by rewrite Ho, Hin.
      * intros j tj Hj. destruct (decide (j = i)) as [->|Hji].
        -- rewrite list_lookup_insert_eq in Hj by done. injection Hj as <-.
           exists h, [], o. by rewrite Hin.
        -- rewrite list_lookup_insert_ne in Hj by done.
           eapply thread_ok_other; [by eapply Hothers|]. by apply Hth.
      * by rewrite length_insert.
    + (* a statement under the lock *)
      assert (is_done t = false) as Hnd' by by destruct t.
      destruct (inside_step _ _ _ _ _ _ _ _ Hwfh Hin Hnd' Hne Hts)
        as (-> & Hct' & Hin').
      exists (h ++ [i]). split; cbn; try done.
      * intros Hfalse. congruence.
      * intros _. exists i, t'. by rewrite list_lookup_insert_eq.
      * intros j tj Hj. destruct (decide (j = i)) as [->|Hji].
        -- rewrite list_lookup_insert_eq in Hj by done. injection Hj as <-.
           apply thread_ok_critical; [done|]. cbn. eauto 10.
        -- rewrite list_lookup_insert_ne in Hj by done.
           eapply thread_ok_other; [by eapply Hothers|]. by apply Hth.
      * by rewrite length_insert.
  - (* outside: the thread acquires the lock *)
    destruct t as [o| | | | | | | |r]; try done. cbn in Hts, Hok.
    destruct (locked s) eqn:Hlk; [done|]. injection Hts as <- <- <-.
    destruct Hok as [Ho Hnew].
    assert (∀ j tj, threads s !! j = Some tj → critical tj = false) as Hothers.
    { intros j tj Hj. destruct (critical tj) eqn:Hc; [|done].
      destruct (Hcrit _ _ Hc Hj) as (? & _). congruence. }
    exists (hist ++ [i]). split; cbn.
    + apply NoDup_app. split; [done|]. split; [|apply NoDup_singleton].
      intros x Hx ->%list_elem_of_singleton. done.
    + intros j [Hj| ->%list_elem_of_singleton]%elem_of_app; [auto|eauto].
    + done.
    + intros _. exists i, (Body o). by rewrite list_lookup_insert_eq.
    + intros j tj Hj. destruct (decide (j = i)) as [->|Hji].
      * rewrite list_lookup_insert_eq in Hj by done. injection Hj as <-.
        cbn. split; [done|]. exists hist, o. rewrite Hfree by done. done.
      * rewrite list_lookup_insert_ne in Hj by done.
        pose proof (Hothers _ _ Hj) as Hc. pose proof (Hth _ _ Hj) as Hokj.
        destruct tj as [oj| | | | | | | |rj]; try done; cbn in Hokj |- *.
        -- destruct Hokj as [? ?]. split; [done|].
           intros [?| ->%list_elem_of_singleton]%elem_of_app; done.
        -- destruct Hokj as (h1 & h2 & oj & -> & ? & ?).
           exists h1, (h2 ++ [i]), oj. by rewrite <- app_assoc.
    + by rewrite length_insert.
Qed.

Lemma init_invariant w0 calls : invariant w0 calls [] (init w0 calls).
Proof.
  split; cbn; try done.
  - constructor.
  - intros i Hi. by apply elem_of_nil in Hi.
  - intros i t Hi. rewrite list_lookup_fmap in Hi.
    destruct (calls !! i) as [o|] eqn:Ho; [|done]. injection Hi as <-.
    cbn. split; [done|]. apply not_elem_of_nil.
  - by rewrite length_fmap.
Qed.

Lemma run_invariant w0 calls sched : ∀ hist s s',
  well_formed w0 →
  invariant w0 calls hist s →
  run sched s = Some s' →
  ∃ hist', invariant w0 calls hist' s'.
Proof.
  induction sched as [|i sched IH]; intros hist s s' Hwf Hinv Hrun; cbn in Hrun.
  - injection Hrun as <-. eauto.
  - destruct (step i s) as [s1|] eqn:Hstep; [|done].
    destruct (step_invariant _ _ _ _ _ _ Hwf Hinv Hstep) as [hist1 Hinv1].
    by eapply IH.
Qed.

Lemma all_done_lookup s i t :
  all_done s → threads s !! i = Some t → ∃ r, t = Done r.
Proof.
  unfold all_done. intros Hall Hi.
  rewrite forallb_forall in Hall. apply list_elem_of_lookup_2, list_elem_of_In in Hi.
  apply Hall in Hi. destruct t; try done. eauto.
Qed.

(** Once all calls have returned, the history is an order of all of them,
    the lock is free, and world and results are those of the calls made
    one after the other in that order. *)
Lemma invariant_all_done w0 calls hist s :
  invariant w0 calls hist s → all_done s →
  hist ≡ₚ seq 0 (length calls)
  ∧ locked s = false
  ∧ world s = seq_world w0 calls hist
  ∧ ∀ i r, result_of s i = Some r →
      ∃ k, hist !! k = Some i ∧ seq_result w0 calls hist k = Some r.
Proof.
  intros [Hnd Hrange Hfree Hheld Hth Hlen] Hall.
  assert (locked s = false) as Hlk.
  { destruct (locked s) eqn:Hlk; [|done].
    destruct Hheld as (i & t & Hi & Hc); [done|].
    destruct (all_done_lookup _ _ _ Hall Hi) as [r ->]. done. }
  split; [|split; [done|split; [auto|]]].
  - apply NoDup_Permutation; [done | apply NoDup_seq|].
    intros i. rewrite elem_of_seq. split.
    + intros [o Ho%lookup_lt_Some]%Hrange. lia.
    + intros [_ Hi]. cbn in Hi. rewrite <- Hlen in Hi.
      apply lookup_lt_is_Some in Hi as [t Ht].
      destruct (all_done_lookup _ _ _ Hall Ht) as [r ->].
      apply Hth in Ht as (h1 & h2 & o & -> & _). set_solver.
  - intros i r Hres. unfold result_of in Hres.
    destruct (threads s !! i) as [t|] eqn:Ht; [|done].
    destruct t; try done. injection Hres as ->.
    apply Hth in Ht as (h1 & h2 & o & -> & Ho & ->).
    exists (length h1). unfold seq_result.
    rewrite list_lookup_middle by done. rewrite Ho.
    by rewrite take_app_length.
Qed.

Lemma sum_list_insert (l : list nat) i x y :
  l !! i = Some x → (sum_list (<[i := y]> l) + x = sum_list l + y)%nat.
Proof.
  revert i. induction l as [|a l IH]; intros [|i] H; try done.
  - injection H as ->. cbn. lia.
  - specialize (IH i H). change (a + sum_list (<[i:=y]> l) + x = a + sum_list l + y)%nat.
    by rewrite <- !Nat.add_assoc, IH.
Qed.

Lemma step_budget i s s' : step i s = Some s' → (budget s' < budget s)%nat.
Proof.
  unfold step, budget. intros Hstep.
  destruct (threads s !! i) as [t|] eqn:Ht; [|done].
  destruct (thread_step (world s) (locked s) t) as [[[w' lk'] t']|] eqn:Hts; [|done].
  injection Hstep as <-. cbn.
  apply thread_step_budget in Hts.
  rewrite list_fmap_insert.
  pose proof (sum_list_insert (steps_left <$> threads s) i (steps_left t) (steps_left t')) as H.
  rewrite list_lookup_fmap, Ht in H. specialize (H eq_refl). lia.
Qed.

Lemma run_budget sched : ∀ s s',
  run sched s = Some s' → (length sched + budget s' ≤ budget s)%nat.
Proof.
  induction sched as [|i sched IH]; intros s s' Hrun; cbn in Hrun.
  - injection Hrun as <-. cbn. lia.
  - destruct (step i s) as [s1|] eqn:Hstep; [|done].
    apply step_budget in Hstep. apply IH in Hrun. cbn. lia.
Qed.

Lemma init_budget w0 calls : budget (init w0 calls) = (6 * length calls)%nat.
Proof.
  unfold budget, init. cbn [threads].
  induction calls as [|o calls IH]; [done|].
  rewrite fmap_cons. cbn [fmap list_fmap sum_list steps_left length].
  change (sum_list (steps_left <$> (Start <$> calls)) = 6 * length calls)%nat in IH.
  change (6 + sum_list (steps_left <$> (Start <$> calls)) = 6 * S (length calls))%nat.
  lia.
Qed.

Lemma forallb_false_lookup {A} (f : A → bool) (l : list A) :
  forallb f l = false → ∃ i x, l !! i = Some x ∧ f x = false.
Proof.
  induction l as [|a l IH]; [done|]. cbn. destruct (f a) eqn:Ha; cbn.
  - intros (i & x & Hi & Hx)%IH. by exists (S i), x.
  - intros _. by exists 0%nat, a.
Qed.

(** No deadlock: while a call is still running, some thread can move. *)
Lemma invariant_progress w0 calls hist s :
  invariant w0 calls hist s → ¬ all_done s → ∃ i s', step i s = Some s'.
Proof.
  intros [Hnd Hrange Hfree Hheld Hth Hlen] Hnot.
  assert (∃ i t, threads s !! i = Some t
                 ∧ (critical t = true ∨ locked s = false ∧ ∃ o, t = Start o))
    as (i & t & Hi & Hcase).
  { destruct (locked s) eqn:Hlk.
    - destruct Hheld as (i & t & Hi & Hc); eauto 6.
    - unfold all_done in Hnot. apply not_true_is_false in Hnot.
      apply forallb_false_lookup in Hnot as (i & t & Hi & Hnd').
      exists i, t. split; [done|]. right. split; [done|].
      pose proof (Hth _ _ Hi) as Hok.
      destruct t; try done; try (destruct Hok as [Hok _]; congruence). eauto. }
  exists i. unfold step. rewrite Hi.
  destruct Hcase as [Hc|(Hlk & o & ->)].
  - destruct (thread_step_critical (world s) (locked s) t Hc) as [[[w' lk'] t'] ->].
    eauto.
  - cbn. rewrite Hlk. eauto.
Qed.

Lemma invariant_complete w0 calls n : ∀ hist s,
  well_formed w0 →
  invariant w0 calls hist s → (budget s ≤ n)%nat →
  ∃ sched s', run sched s = Some s' ∧ all_done s'.
Proof.
  induction n as [|n IH]; intros hist s Hwf Hinv Hb;
    (destruct (forallb is_done (threads s)) eqn:Hall; [by exists [], s|]);
    (destruct (invariant_progress _ _ _ _ Hinv) as (i & s1 & Hstep);
      [unfold all_done; congruence|]);
    pose proof (step_budget _ _ _ Hstep) as Hlt.
  - lia.
  - destruct (step_invariant _ _ _ _ _ _ Hwf Hinv Hstep) as [hist1 Hinv1].
    destruct (IH hist1 s1 Hwf Hinv1) as (sched & s' & Hrun & Hdone); [lia|].
    exists (i :: sched), s'. cbn. by rewrite Hstep.
Qed.

Lemma seq_world_increments code (n : nat) order : ∀ w d,
  (∀ i, i ∈ order → (i < n)%nat) →
  record_of w code = Some d →
  ∃ d', record_of (seq_world w (replicate n (IncrementClicks code)) order) code = Some d'
    ∧ clicks d' = clicks d + Z.of_nat (length order)
    ∧ original_url d' = original_url d
    ∧ created_at d' = created_at d.
Proof.
  induction order as [|i order IH]; intros w d Hrange Hd.
  - exists d. cbn. split; [done|]. split; [lia|done].
  - assert (i < n)%nat as Hi by (apply Hrange; set_solver).
    cbn [seq_world foldl]. unfold seq_step at 2.
    rewrite lookup_replicate_2 by done. cbn [call].
    pose proof (increment_record_same w code d Hd) as Hinc.
    destruct (increment_clicks w code) as [b w1]. cbn [snd] in *.
    destruct (IH w1 (add_click d)) as (d' & Hd' & Hc & Hu & Ht); [set_solver|done|].
    exists d'. split; [done|]. cbn in Hc, Hu, Ht. rewrite length_cons.
    split; [lia|done].
Qed.

Lemma call_create_new w code u now :
  _urls w !! code = None →
  ∃ l w', call w (Create code u now) = (ReturnedDict l, w')
    ∧ is_Some (_urls w' !! code)
    ∧ record_of w' code = Some (mkUrlData u code 0 now).
Proof.
  intros Hc. pose proof (create_record_same w code u now Hc) as Hrec.
  cbn [call]. rewrite create_fresh in * by done. cbn [snd] in Hrec.
  eexists _, _. split; [done|]. split; [|done]. cbn. rewrite lookup_insert_eq. eauto.
Qed.

Lemma call_create_duplicate w code u now :
  is_Some (_urls w !! code) →
  call w (Create code u now) = (Raised (ValueError (already_exists code)), w).
Proof. intros Hc. cbn [call]. by rewrite create_duplicate. Qed.

Lemma seq_two_calls w0 (c0 c1 : Op) :
  seq_result w0 [c0; c1] [0; 1]%nat 0 = Some (fst (call w0 c0))
  ∧ seq_result w0 [c0; c1] [0; 1]%nat 1 = Some (fst (call (snd (call w0 c0)) c1))
  ∧ seq_world w0 [c0; c1] [0; 1]%nat = snd (call (snd (call w0 c0)) c1)
  ∧ seq_result w0 [c0; c1] [1; 0]%nat 0 = Some (fst (call w0 c1))
  ∧ seq_result w0 [c0; c1] [1; 0]%nat 1 = Some (fst (call (snd (call w0 c1)) c0))
  ∧ seq_world w0 [c0; c1] [1; 0]%nat = snd (call (snd (call w0 c1)) c0).
Proof. done. Qed.

(** Two calls of [create_url_mapping] with one code, made one after the
    other in either order. *)
Lemma seq_two_creates w0 code u1 n1 u2 n2 order r0 r1 :
  let calls := [Create code u1 n1; Create code u2 n2] in
  let dup := Raised (ValueError (already_exists code)) in
  order ≡ₚ [0; 1]%nat →
  (∃ k, order !! k = Some 0%nat ∧ seq_result w0 calls order k = Some r0) →
  (∃ k, order !! k = Some 1%nat ∧ seq_result w0 calls order k = Some r1) →
  if url_exists w0 code then r0 = dup ∧ r1 = dup
  else ((∃ l, r0 = ReturnedDict l) ∧ r1 = dup
        ∧ original_url <$> record_of (seq_world w0 calls order) code = Some u1)
       ∨ (r0 = dup ∧ (∃ l, r1 = ReturnedDict l)
          ∧ original_url <$> record_of (seq_world w0 calls order) code = Some u2).
Proof.
  intros calls dup Hperm (k0 & Hk0 & Hr0) (k1 & Hk1 & Hr1).
  set (c0 := Create code u1 n1) in *. set (c1 := Create code u2 n2) in *.
  pose proof (seq_two_calls w0 c0 c1) as (E1 & E2 & E3 & E4 & E5 & E6).
  fold calls in E1, E2, E3, E4, E5, E6.
  symmetry in Hperm. apply Permutation_length_2_inv in Hperm as [-> | ->];
    destruct k0 as [|[|k0]]; try done; destruct k1 as [|[|k1]]; try done.
  - rewrite E1 in Hr0. rewrite E2 in Hr1. rewrite E3.
    apply (inj Some) in Hr0, Hr1. subst r0 r1 c0 c1.
    destruct (url_exists w0 code) eqn:Hex.
    + apply url_exists_true in Hex. rewrite (call_create_duplicate w0) by done.
      cbn [fst snd]. by rewrite call_create_duplicate.
    + apply url_exists_false in Hex.
      destruct (call_create_new w0 code u1 n1 Hex) as (l & w1 & -> & Hin & Hrec).
      cbn [fst snd]. rewrite call_create_duplicate by done. cbn [fst snd].
      left. rewrite Hrec. eauto.
  - rewrite E5 in Hr0. rewrite E4 in Hr1. rewrite E6.
    apply (inj Some) in Hr0, Hr1. subst r0 r1 c0 c1.
    destruct (url_exists w0 code) eqn:Hex.
    + apply url_exists_true in Hex. rewrite (call_create_duplicate w0) by done.
      cbn [fst snd]. by rewrite call_create_duplicate.
    + apply url_exists_false in Hex.
      destruct (call_create_new w0 code u2 n2 Hex) as (l & w1 & -> & Hin & Hrec).
      cbn [fst snd]. rewrite call_create_duplicate by done. cbn [fst snd].
      right. rewrite Hrec. eauto.
Qed.

(** C4. Threads that call the store, one call each, preempted at any point
    and scheduled in any order.  Every execution is at most six steps per
    call long and can be continued until all calls have returned.  Once
    they have, the lock is free, and the world and every result are those
    of the calls executed one at a time in some order of all of them.
    [N] calls of [increment_clicks] on a code of the store leave its counter
    exactly [N] higher.  Of two calls of [create_url_mapping] with the same
    code, one returns the new record and the other raises the duplicate-code
    [ValueError] when the code was free, and both raise it when it was not. *)
Theorem store_calls_linearizable w0 calls sched s :
  well_formed w0 →
  run sched (init w0 calls) = Some s →
  (length sched ≤ 6 * length calls)%nat
  ∧ (∃ sched' s', run sched' s = Some s' ∧ all_done s')
  ∧ (all_done s →
      locked s = false
      ∧ (∃ order, order ≡ₚ seq 0 (length calls)
           ∧ world s = seq_world w0 calls order
           ∧ ∀ i r, result_of s i = Some r →
               ∃ k, order !! k = Some i ∧ seq_result w0 calls order k = Some r)
      ∧ (∀ code d, calls = replicate (length calls) (IncrementClicks code) →
           record_of w0 code = Some d →
           ∃ d', record_of (world s) code = Some d'
             ∧ clicks d' = clicks d + Z.of_nat (length calls))
      ∧ (∀ code u1 n1 u2 n2, calls = [Create code u1 n1; Create code u2 n2] →
           ∃ r0 r1, result_of s 0 = Some r0 ∧ result_of s 1 = Some r1
             ∧ let dup := Raised (ValueError (already_exists code)) in
               if url_exists w0 code then r0 = dup ∧ r1 = dup
               else ((∃ l, r0 = ReturnedDict l) ∧ r1 = dup
                     ∧ original_url <$> record_of (world s) code = Some u1)
                    ∨ (r0 = dup ∧ (∃ l, r1 = ReturnedDict l)
                       ∧ original_url <$> record_of (world s) code = Some u2))).
Proof.
  intros Hwf Hrun.
  destruct (run_invariant w0 calls sched [] _ _ Hwf (init_invariant w0 calls) Hrun)
    as [hist Hinv].
  split.
  { apply run_budget in Hrun. rewrite init_budget in Hrun. lia. }
  split.
  { by eapply (invariant_complete w0 calls (budget s)). }
  intros Hall.
  destruct (invariant_all_done _ _ _ _ Hinv Hall) as (Hperm & Hlk & Hw & Hres).
  split; [done|]. split; [eauto|]. split.
  - intros code d Hcalls Hd.
    destruct (seq_world_increments code (length calls) hist w0 d) as (d' & Hd' & Hc & _);
      [|done|].
    { intros i Hi. rewrite Hperm in Hi. apply elem_of_seq in Hi. lia. }
    exists d'. rewrite Hw, Hcalls, length_replicate. split; [done|].
    rewrite Hc. apply Permutation_length in Hperm. rewrite Hperm, length_seq. done.
  - intros code u1 n1 u2 n2 ->.
    pose proof (inv_length _ _ _ _ Hinv) as Hlen. cbn in Hlen.
    assert (∀ i, (i < 2)%nat → ∃ r, result_of s i = Some r) as Hdone.
    { intros i Hi. unfold result_of. rewrite <- Hlen in Hi.
      apply lookup_lt_is_Some in Hi as [t Ht]. rewrite Ht.
      destruct (all_done_lookup _ _ _ Hall Ht) as [r ->]. eauto. }
    destruct (Hdone 0%nat) as [r0 Hr0]; [lia|].
    destruct (Hdone 1%nat) as [r1 Hr1]; [lia|].
    exists r0, r1. split; [done|]. split; [done|].
    rewrite Hw. by apply seq_two_creates; [|apply Hres..].
Qed.

Lemma store_calls_linearizable_witness :
  let calls := replicate 3 (IncrementClicks "abc123") in
  let sched := [1; 1; 1; 1; 1; 2; 2; 2; 2; 2; 0; 0; 0; 0; 0]%nat in
  well_formed demo_world
  ∧ ∃ s, run sched (init demo_world calls) = Some s
      ∧ all_done s
      ∧ clicks <$> record_of (world s) "abc123" = Some 3.
Proof.
  intros calls sched. split; [exact demo_world_well_formed|].
  pose (s := default (init demo_world calls) (run sched (init demo_world calls))).
  assert (run sched (init demo_world calls) = Some s) as Hrun by by vm_compute.
  assert (all_done s) as Hall by by vm_compute.
  destruct (store_calls_linearizable demo_world calls sched s
              demo_world_well_formed Hrun) as (_ & _ & H).
  destruct (H Hall) as (_ & _ & Hinc & _).
  destruct (Hinc "abc123" (mkUrlData demo_url "abc123" 0 demo_now) eq_refl eq_refl)
    as (d' & Hd' & Hc).
  exists s. split; [exact Hrun|]. split; [exact Hall|].
  rewrite Hd'. cbn. by rewrite Hc.
Defined.

(** Two threads create ["abc123"]; the second to take the lock is the
    one that gets the [ValueError]. *)
Example two_creates_one_winner :
  let calls := [Create "abc123" "http://first.example" demo_now;
                Create "abc123" "http://second.example" demo_now] in
  ∃ s, run [1; 1; 1; 1; 1; 1; 0; 0; 0]%nat (init empty_world calls) = Some s
    ∧ result_of s 0 = Some (Raised (ValueError "Short code 'abc123' already exists"))
    ∧ result_of s 1 = Some (ReturnedDict 2%positive)
    ∧ original_url <$> record_of (world s) "abc123" = Some "http://second.example".
Proof. eexists. split; [by vm_compute|]. by vm_compute. Qed.

(** While a thread is between the membership test and [Exit], no other
    thread gets the lock: its first step is refused. *)
Example acquire_blocks :
  let calls := replicate 2 (IncrementClicks "abc123") in
  run [0; 0; 1]%nat (init demo_world calls) = None
  ∧ is_Some (run [0; 0; 0; 0; 0; 1]%nat (init demo_world calls)).
Proof. split; [by vm_compute|]. vm_compute. eauto. Qed.

(** What the lock is for: two threads inside the body of
    [increment_clicks] at once, neither holding the lock, both read the
    counter before either writes it, and one click is lost. *)
Example lost_update_without_lock :
  let racing := mkSystem demo_world false
                  [Body (IncrementClicks "abc123"); Body (IncrementClicks "abc123")] in
  ∃ s, run [0; 0; 1; 1; 0; 1; 0; 1]%nat racing = Some s
    ∧ all_done s
    ∧ clicks <$> record_of (world s) "abc123" = Some 1.
Proof. eexists. split; [by vm_compute|]. by vm_compute. Qed.
End ThreadFacts.

(** * Further properties of the code *)

Section StripFacts.
Implicit Types (p : ascii → bool) (s t pre post core : string) (c : ascii).

Lemma append_empty_l s : "" +:+ s = s.
Proof. reflexivity. Qed.

Lemma append_nil_r s : s +:+ "" = s.
Proof. induction s as [|c s IH]; [done|]. by rewrite append_cons, IH. Qed.

Lemma lstrip_by_blank p pre s :
  Str.all p pre = true → Str.lstrip_by p (pre +:+ s) = Str.lstrip_by p s.
Proof.
  induction pre as [|c pre IH]; [done|]. cbn [Str.all].
  intros [Hc Hpre]%andb_true_iff. rewrite append_cons. cbn [Str.lstrip_by].
  rewrite Hc. auto.
Qed.

Lemma lstrip_by_all p s : Str.all p s = true → Str.lstrip_by p s = "".
Proof.
  induction s as [|c s IH]; [done|]. cbn [Str.all Str.lstrip_by].
  intros [-> Hs]%andb_true_iff. auto.
Qed.

Lemma lstrip_by_fixed p s : starts_with p s = false → Str.lstrip_by p s = s.
Proof. destruct s as [|c s]; [done|]. cbn. by intros ->. Qed.

Lemma lstrip_by_decompose p s :
  ∃ pre, Str.all p pre = true ∧ s = pre +:+ Str.lstrip_by p s
         ∧ starts_with p (Str.lstrip_by p s) = false.
Proof.
  induction s as [|c s (pre & Hpre & Hs & Hst)].
  - by exists "".
  - cbn [Str.lstrip_by]. destruct (p c) eqn:Hc.
    + exists (String c pre). cbn [Str.all]. rewrite Hc, Hpre, append_cons, <- Hs. done.
    + exists "". cbn. by rewrite Hc.
Qed.

Lemma rstrip_by_all p s : Str.all p s = true → Str.rstrip_by p s = "".
Proof.
  induction s as [|c s IH]; [done|]. cbn [Str.all Str.rstrip_by].
  intros [Hc Hs]%andb_true_iff. by rewrite IH, Hc.
Qed.

Lemma rstrip_by_blank p s post :
  Str.all p post = true → Str.rstrip_by p (s +:+ post) = Str.rstrip_by p s.
Proof.
  intros Hpost. induction s as [|c s IH].
  - rewrite append_empty_l. by apply rstrip_by_all.
  - rewrite append_cons. cbn [Str.rstrip_by]. by rewrite IH.
Qed.

Lemma rstrip_by_fixed p s : ends_with p s = false → Str.rstrip_by p s = s.
Proof.
  induction s as [|c s IH]; [done|]. cbn [ends_with Str.rstrip_by].
  destruct s as [|a s].
  - cbn. by intros ->.
  - intros H. by rewrite IH.
Qed.

Lemma rstrip_by_decompose p s :
  ∃ post, Str.all p post = true ∧ s = Str.rstrip_by p s +:+ post
          ∧ ends_with p (Str.rstrip_by p s) = false.
Proof.
  induction s as [|c s (post & Hpost & Hs & Hend)].
  - by exists "".
  - cbn [Str.rstrip_by]. destruct (Str.rstrip_by p s) as [|a t] eqn:Ht.
    + rewrite append_empty_l in Hs. subst post. destruct (p c) eqn:Hc.
      * exists (String c s). cbn [Str.all]. by rewrite Hc, Hpost.
      * exists s. cbn. by rewrite Hc.
    + exists post. rewrite append_cons, <- Hs. done.
Qed.

Lemma rstrip_by_starts p s :
  starts_with p s = false → starts_with p (Str.rstrip_by p s) = false.
Proof.
  destruct s as [|c s]; [done|]. cbn [starts_with Str.rstrip_by]. intros Hc.
  destruct (Str.rstrip_by p s); cbn; by rewrite ?Hc.
Qed.

Lemma strip_decompose s :
  ∃ pre post,
    s = pre +:+ sanitize_url s +:+ post
    ∧ blank pre ∧ blank post
    ∧ starts_with Str.isspace (sanitize_url s) = false
    ∧ ends_with Str.isspace (sanitize_url s) = false.
Proof.
  unfold sanitize_url, Str.strip, blank.
  destruct (lstrip_by_decompose Str.isspace s) as (pre & Hpre & Hs & Hst).
  destruct (rstrip_by_decompose Str.isspace (Str.lstrip_by Str.isspace s))
    as (post & Hpost & Hl & Hend).
  exists pre, post. rewrite <- Hl, <- Hs. repeat split; try done.
  by apply rstrip_by_starts.
Qed.

Lemma strip_exact pre core post :
  blank pre → blank post →
  starts_with Str.isspace core = false →
  ends_with Str.isspace core = false →
  sanitize_url (pre +:+ core +:+ post) = core
  ∧ sanitize_url (sanitize_url (pre +:+ core +:+ post)) = core.
Proof.
  unfold blank, sanitize_url, Str.strip. intros Hpre Hpost Hst Hend.
  assert (Str.rstrip_by Str.isspace (Str.lstrip_by Str.isspace (pre +:+ core +:+ post))
          = core) as Hcore.
  { rewrite lstrip_by_blank by done. destruct core as [|c core].
    - rewrite append_empty_l. by rewrite lstrip_by_all.
    - rewrite lstrip_by_fixed by (by rewrite append_cons).
      rewrite rstrip_by_blank by done. by apply rstrip_by_fixed. }
  split; [done|]. rewrite Hcore.
  by rewrite lstrip_by_fixed, rstrip_by_fixed.
Qed.

(** X1. [sanitize_url] removes whitespace at the two ends and nothing else:
    the input is the result between two blank strings, and the result
    neither begins nor ends with whitespace. *)
Theorem sanitize_url_decompose s :
  ∃ pre post,
    s = pre +:+ sanitize_url s +:+ post
    ∧ blank pre ∧ blank post
    ∧ starts_with Str.isspace (sanitize_url s) = false
    ∧ ends_with Str.isspace (sanitize_url s) = false.
Proof. apply strip_decompose. Qed.

(** X2. A string that neither begins nor ends with whitespace is what
    [sanitize_url] returns for it with any whitespace around it, and it is a
    fixed point of [sanitize_url]. *)
Theorem sanitize_url_exact pre core post :
  blank pre → blank post →
  starts_with Str.isspace core = false →
  ends_with Str.isspace core = false →
  sanitize_url (pre +:+ core +:+ post) = core
  ∧ sanitize_url core = core.
Proof.
  intros Hpre Hpost Hst Hend. split; [by apply strip_exact|].
  destruct (strip_exact "" core "") as [H _]; try done.
  by rewrite append_empty_l, append_nil_r in H.
Qed.

Lemma sanitize_url_exact_witness :
  blank "  " ∧ blank " "
  ∧ sanitize_url ("  " +:+ "http://a.example/x y" +:+ " ") = "http://a.example/x y".
Proof.
  split; [reflexivity|]. split; [reflexivity|].
  exact (proj1 (sanitize_url_exact "  " "http://a.example/x y" " "
                  eq_refl eq_refl eq_refl eq_refl)).
Defined.
End StripFacts.

Section FormatFacts.
Implicit Types (p : ascii → bool) (s t : string) (c : ascii).

(** X3. [format_short_url] puts exactly one slash between the base and the
    code however many slashes the base ends with: every base is a stem that
    does not end with a slash followed by slashes, the result is the stem,
    one slash and the code, and one more slash at the end of the base
    changes nothing. *)
Theorem format_short_url_slashes code base :
  (∃ stem slashes, base = stem +:+ slashes
     ∧ Str.all is_slash slashes = true ∧ ends_with is_slash stem = false)
  ∧ (∀ stem slashes, base = stem +:+ slashes →
       Str.all is_slash slashes = true → ends_with is_slash stem = false →
       format_short_url code base = stem +:+ "/" +:+ code)
  ∧ format_short_url code (base +:+ "/") = format_short_url code base.
Proof.
  unfold format_short_url. split; [|split].
  - destruct (rstrip_by_decompose is_slash base) as (slashes & Hs & Hb & He).
    by exists (Str.rstrip_by is_slash base), slashes.
  - intros stem slashes -> Hs He.
    by rewrite rstrip_by_blank, rstrip_by_fixed.
  - by rewrite rstrip_by_blank.
Qed.

Lemma format_short_url_slashes_witness :
  format_short_url "abc123" "http://sho.rt///" = "http://sho.rt/abc123"
  ∧ format_short_url "abc123" ("http://sho.rt" +:+ "/") = "http://sho.rt/abc123".
Proof.
  destruct (format_short_url_slashes "abc123" "http://sho.rt///") as (_ & H & _).
  destruct (format_short_url_slashes "abc123" "http://sho.rt") as (_ & H0 & H1).
  split.
  - exact (H "http://sho.rt" "///" eq_refl eq_refl eq_refl).
  - rewrite H1. exact (H0 "http://sho.rt" "" eq_refl eq_refl eq_refl).
Defined.
End FormatFacts.

Section ValidatorMore.
Implicit Types (p : ascii → bool) (s t host rest url : string) (c d : ascii).

Lemma host_char_plain c :
  host_char c = true →
  UrlLib.unsafe_byte c = false ∧ UrlLib.netloc_delim c = false
  ∧ Ascii.eqb c "[" = false ∧ Ascii.eqb c "]" = false.
Proof. destruct c as [[] [] [] [] [] [] [] []]; by vm_compute. Qed.

Lemma netloc_delim_safe d : UrlLib.netloc_delim d = true → UrlLib.unsafe_byte d = false.
Proof. destruct d as [[] [] [] [] [] [] [] []]; by vm_compute. Qed.

Lemma take_until_delim p s d t :
  p d = true → Str.take_until p (s +:+ String d t) = Str.take_until p s.
Proof.
  intros Hd. induction s as [|c s IH].
  - rewrite append_empty_l. cbn. by rewrite Hd.
  - rewrite append_cons. cbn. by rewrite IH.
Qed.

Lemma take_until_all p s :
  Str.all (λ c, negb (p c)) s = true → Str.take_until p s = s.
Proof.
  induction s as [|c s IH]; [done|]. cbn.
  intros [Hc Hs]%andb_true_iff. apply negb_true_iff in Hc. by rewrite Hc, IH.
Qed.

Lemma remove_chars_host host :
  Str.all host_char host = true → Str.remove_chars UrlLib.unsafe_byte host = host.
Proof.
  induction host as [|c host IH]; [done|]. cbn.
  intros [Hc Hs]%andb_true_iff. destruct (host_char_plain c Hc) as (-> & _).
  by rewrite IH.
Qed.

Lemma host_no_delim host :
  Str.all host_char host = true →
  Str.all (λ c, negb (UrlLib.netloc_delim c)) host = true.
Proof.
  induction host as [|c host IH]; [done|]. cbn.
  intros [Hc Hs]%andb_true_iff. destruct (host_char_plain c Hc) as (_ & -> & _).
  by rewrite IH.
Qed.

Lemma host_no_bracket host :
  Str.all host_char host = true →
  Str.contains "[" host = false ∧ Str.contains "]" host = false.
Proof.
  induction host as [|c host IH]; [done|]. cbn.
  intros [Hc Hs]%andb_true_iff. destruct (host_char_plain c Hc) as (_ & _ & -> & ->).
  by apply IH.
Qed.

(** The network location of [scheme://host rest] for a plain host. *)
Lemma netloc_of_host host rest :
  Str.all host_char host = true →
  rest = "" ∨ starts_with UrlLib.netloc_delim rest = true →
  UrlLib.check_brackets
    (Str.take_until UrlLib.netloc_delim
       (Str.remove_chars UrlLib.unsafe_byte (host +:+ rest))) = inr host.
Proof.
  intros Hhost Hrest. rewrite remove_chars_append, remove_chars_host by done.
  assert (Str.take_until UrlLib.netloc_delim
            (host +:+ Str.remove_chars UrlLib.unsafe_byte rest) = host) as ->.
  { destruct Hrest as [->|Hrest].
    - cbn. rewrite append_nil_r. by apply take_until_all, host_no_delim.
    - destruct rest as [|d rest]; [done|]. cbn in Hrest. cbn [Str.remove_chars].
      rewrite netloc_delim_safe by done. rewrite take_until_delim by done.
      by apply take_until_all, host_no_delim. }
  unfold UrlLib.check_brackets.
  destruct (host_no_bracket host Hhost) as [-> ->]. done.
Qed.

(** X4. [validate_url] accepts [http://] or [https://] followed by a host
    of at least three letters, digits, dots and hyphens and by nothing or
    by anything that begins with [/], [?] or [#]. *)
Theorem validate_url_accepts_plain_host host rest :
  Str.all host_char host = true →
  (3 ≤ String.length host)%nat →
  rest = "" ∨ starts_with UrlLib.netloc_delim rest = true →
  validate_url ("http://" +:+ host +:+ rest) = (true, "")
  ∧ validate_url ("https://" +:+ host +:+ rest) = (true, "").
Proof.
  intros Hhost Hlen Hrest.
  pose proof (netloc_of_host host rest Hhost Hrest) as Hn.
  split; apply validate_url_true.
  - split; [apply orb_true_iff; left; apply prefix_app; eauto|].
    exists host. by rewrite urlparse_netloc_http.
  - split; [apply orb_true_iff; right; apply prefix_app; eauto|].
    exists host. by rewrite urlparse_netloc_https.
Qed.

Lemma validate_url_same_netloc url url' :
  url ≠ "" → url' ≠ "" →
  String.prefix "http://" url || String.prefix "https://" url
  = String.prefix "http://" url' || String.prefix "https://" url' →
  UrlLib.urlparse_netloc url = UrlLib.urlparse_netloc url' →
  validate_url url = validate_url url'.
Proof.
  intros Hne Hne' Hp Hn. rewrite !validate_url_cases, Hp, Hn.
  destruct (String.eqb_spec url ""), (String.eqb_spec url' ""); done.
Qed.

Lemma netloc_ignores_path s d t :
  UrlLib.netloc_delim d = true →
  Str.take_until UrlLib.netloc_delim
    (Str.remove_chars UrlLib.unsafe_byte (s +:+ String d t))
  = Str.take_until UrlLib.netloc_delim (Str.remove_chars UrlLib.unsafe_byte s).
Proof.
  intros Hd. rewrite remove_chars_append. cbn [Str.remove_chars].
  rewrite netloc_delim_safe by done. by apply take_until_delim.
Qed.

(** X5. [validate_url] never looks behind the network location: what
    follows the first [/], [?] or [#] after the scheme does not change its
    answer. *)
Theorem validate_url_ignores_path host d rest :
  UrlLib.netloc_delim d = true →
  validate_url ("http://" +:+ host +:+ String d rest) = validate_url ("http://" +:+ host)
  ∧ validate_url ("https://" +:+ host +:+ String d rest) = validate_url ("https://" +:+ host).
Proof.
  intros Hd. split; apply validate_url_same_netloc; try done.
  - assert (String.prefix "http://" ("http://" +:+ host +:+ String d rest) = true) as ->
      by (apply prefix_app; eauto).
    assert (String.prefix "http://" ("http://" +:+ host) = true) as ->
      by (apply prefix_app; eauto). done.
  - by rewrite !urlparse_netloc_http, netloc_ignores_path.
  - assert (String.prefix "https://" ("https://" +:+ host +:+ String d rest) = true) as ->
      by (apply prefix_app; eauto).
    assert (String.prefix "https://" ("https://" +:+ host) = true) as ->
      by (apply prefix_app; eauto). by rewrite !orb_true_r.
  - by rewrite !urlparse_netloc_https, netloc_ignores_path.
Qed.

Lemma validate_url_accepts_plain_host_witness :
  Str.all host_char "example.com" = true
  ∧ validate_url "https://example.com?next=http://[" = (true, "").
Proof.
  split; [reflexivity|].
  refine (proj2 (validate_url_accepts_plain_host "example.com" "?next=http://["
                   eq_refl _ (or_intror eq_refl))).
  cbn. lia.
Defined.

Lemma validate_url_ignores_path_witness :
  UrlLib.netloc_delim "/" = true
  ∧ validate_url "http://ab/a/long/path" = validate_url "http://ab"
  ∧ validate_url "http://ab" = (false, "Invalid domain name").
Proof.
  split; [reflexivity|]. split; [|reflexivity].
  exact (proj1 (validate_url_ignores_path "ab" "/" "a/long/path" eq_refl)).
Defined.
End ValidatorMore.

Section ServiceFacts.
Implicit Types (w : World) (r : RandomState) (code raw now : string) (d : UrlData)
  (h : HttpRequest) (req : Request).

Lemma record_of_exists w code d : record_of w code = Some d → url_exists w code = true.
Proof. intros (l & Hl & _)%record_of_Some. apply url_exists_true. eauto. Qed.

Lemma record_of_None w code :
  well_formed w → (record_of w code = None ↔ url_exists w code = false).
Proof.
  intros Hwf. rewrite url_exists_false. split.
  - intros Hr. destruct (_urls w !! code) as [l|] eqn:Hl; [|done].
    destruct (well_formed_record w code Hwf) as [d Hd]; [eauto|]. congruence.
  - intros Hl. unfold record_of. by rewrite Hl.
Qed.

Lemma get_stats_record w code :
  get_stats w code
  = (λ d, mkStats (original_url d) (clicks d) (created_at d)) <$> record_of w code.
Proof.
  unfold get_stats, record_of. destruct (_urls w !! code) as [l|]; [cbn|done].
  by destruct (dicts w !! l).
Qed.

(** X6. The readers of a store agree: [url_exists], [get_url_mapping] and
    [get_stats] find a code or miss it together, [get_url_stats] answers 404
    exactly for a code that is not there, and for a code that is there the
    statistics are the URL, the clicks and the creation time of the dict
    that [get_url_mapping] returns, which carries that code. *)
Theorem readers_agree w code :
  well_formed w →
  (url_exists w code = true ↔ is_Some (get_url_mapping w code))
  ∧ (url_exists w code = true ↔ is_Some (get_stats w code))
  ∧ (url_exists w code = false ↔
       get_url_stats code w = Json (ErrorBody "Short code not found") 404)
  ∧ (∀ l, get_url_mapping w code = Some l →
       ∃ d, read_dict w l = Some d
         ∧ short_code d = code
         ∧ get_stats w code = Some (mkStats (original_url d) (clicks d) (created_at d))
         ∧ get_url_stats code w
           = Json (StatsBody (original_url d) (clicks d) (created_at d)) 200).
Proof.
  intros Hwf. unfold get_url_stats. rewrite get_stats_record.
  split; [by rewrite url_exists_true|]. split; [|split].
  - rewrite fmap_is_Some. split.
    + intros H%url_exists_true. by apply well_formed_record.
    + intros [d Hd]. by eapply record_of_exists.
  - rewrite <- record_of_None by done. destruct (record_of w code); cbn; split; done.
  - intros l Hl. destruct (Hwf _ _ Hl) as (d & Hd & Hk). exists d.
    assert (record_of w code = Some d) as -> by (apply record_of_Some; eauto).
    done.
Qed.

Lemma redirect_to_url_missing w code :
  url_exists w code = false →
  redirect_to_url code w = (Json (ErrorBody "Short code not found") 404, w).
Proof.
  intros Hl%url_exists_false. unfold redirect_to_url, get_url_mapping. by rewrite Hl.
Qed.

(** X7. [redirect_to_url] on a code without a record answers 404 and
    leaves the world as it is.  On a code with a record it adds one click
    to the record and leaves the table, the other records and the
    well-formedness of the store alone; it then redirects with 302 to the
    URL of the record when that URL has no carriage return and no line
    feed, and answers 500 "Internal server error" when it has one, the
    click being counted all the same. *)
Theorem redirect_to_url_spec w code :
  well_formed w →
  match record_of w code with
  | None =>
      url_exists w code = false
      ∧ redirect_to_url code w = (Json (ErrorBody "Short code not found") 404, w)
  | Some d =>
      ∃ resp w', redirect_to_url code w = (resp, w')
        ∧ (single_line (original_url d) = true → resp = Redirect (original_url d) 302)
        ∧ (single_line (original_url d) = false →
             resp = Json (ErrorBody "Internal server error") 500)
        ∧ record_of w' code = Some (add_click d)
        ∧ (∀ c, c ≠ code → record_of w' c = record_of w c)
        ∧ _urls w' = _urls w
        ∧ well_formed w'
  end.
Proof.
  intros Hwf. destruct (record_of w code) as [d|] eqn:Hd.
  - eexists _, (snd (increment_clicks w code)).
    split; [by apply redirect_to_url_found|].
    split; [by intros ->|]. split; [by intros ->|].
    split; [by apply increment_record_same|].
    split; [intros c Hc; by apply increment_record_other|].
    split; [|by apply increment_well_formed].
    unfold increment_clicks. by destruct (_urls w !! code).
  - apply record_of_None in Hd; [|done]. split; [done|].
    by apply redirect_to_url_missing.
Qed.

Lemma validate_url_accepted url :
  fst (validate_url url) = true → validate_url url = (true, "").
Proof.
  rewrite validate_url_cases.
  repeat match goal with
         | |- context [if ?b then _ else _] => destruct b; try done
         | |- context [match ?x with inl _ => _ | inr _ => _ end] => destruct x; try done
         end.
Qed.

(** [sub in s] holds exactly when [s] is written around [sub]. *)
Lemma contains_str_spec sub s :
  Str.contains_str sub s = true ↔ ∃ pre post, s = pre +:+ sub +:+ post.
Proof.
  induction s as [|c s IH].
  - cbn [Str.contains_str]. rewrite orb_false_r, prefix_app. split.
    + intros [t Ht]. by exists "", t.
    + intros ([|a pre] & post & H); [by exists post|]. by rewrite append_cons in H.
  - cbn [Str.contains_str]. rewrite orb_true_iff, IH, prefix_app. split.
    + intros [[t Ht]|(pre & post & Hs)].
      * by exists "", t.
      * exists (String c pre), post. by rewrite append_cons, Hs.
    + intros ([|a pre] & post & H).
      * left. by exists post.
      * right. rewrite append_cons in H. injection H as _ H. eauto.
Qed.

Lemma existsb_is_url items :
  existsb is_url items = true ↔ In (JString "url") items.
Proof.
  rewrite existsb_exists. split.
  - intros (v & Hin & Hv). destruct v; try done. cbn in Hv.
    apply String.eqb_eq in Hv. by subst.
  - intros Hin. exists (JString "url"). by split.
Qed.

(** [shorten_url] in one case distinction. *)
Lemma shorten_url_cases req now w r :
  shorten_url req now w r
  = if negb (is_json req) then
      (Json (ErrorBody "Content-Type must be application/json") 400, w, r)
    else
      match get_json req with
      | inl _ => (internal_server_error, w, r)
      | inr data =>
          if negb (truthy data) then (Json (ErrorBody "URL is required") 400, w, r)
          else
            match data with
            | JObject members =>
                match members !! "url" with
                | None => (Json (ErrorBody "URL is required") 400, w, r)
                | Some (JString raw) =>
                    if fst (validate_url (sanitize_url raw)) then
                      match generate_unique_short_code
                              w default_length default_max_attempts r with
                      | (inl _, r1) =>
                          (Json (ErrorBody
                                   "Unable to generate short code. Please try again.")
                                500, w, r1)
                      | (inr code, r1) =>
                          (Json (ShortenBody code ("http://localhost:5000/" +:+ code)) 201,
                           snd (create_url_mapping w code (sanitize_url raw) now), r1)
                      end
                    else
                      (Json (ErrorBody (snd (validate_url (sanitize_url raw)))) 400, w, r)
                | Some _ => (internal_server_error, w, r)
                end
            | JArray items =>
                if existsb is_url items then (internal_server_error, w, r)
                else (Json (ErrorBody "URL is required") 400, w, r)
            | JString s =>
                if Str.contains_str "url" s then (internal_server_error, w, r)
                else (Json (ErrorBody "URL is required") 400, w, r)
            | JNull | JBool _ | JNumber _ => (internal_server_error, w, r)
            end
      end.
Proof.
  destruct (is_json req) eqn:Hj; cbn [negb]; [|unfold shorten_url; by rewrite Hj].
  destruct (get_json req) as [e|data] eqn:Hg; [unfold shorten_url; by rewrite Hj, Hg|].
  destruct data as [|b|nz|s|items|members].
  - unfold shorten_url. by rewrite Hj, Hg.
  - unfold shorten_url. rewrite Hj, Hg. by destruct b.
  - unfold shorten_url. rewrite Hj, Hg. by destruct nz.
  - unfold shorten_url. rewrite Hj, Hg. cbn.
    destruct (negb (s =? "")); [|done]. by destruct (Str.contains_str "url" s).
  - unfold shorten_url. rewrite Hj, Hg. cbn.
    destruct items; [done|]. by destruct (existsb is_url _).
  - destruct (members !! "url") as [value|] eqn:Hurl.
    + destruct value as [|b|nz|raw|items|members'].
      4:{ rewrite (shorten_url_posted req now w r members raw Hj Hg Hurl). cbn zeta.
          assert (truthy (JObject members) = true) as ->; [|done].
          cbn. destruct (map_to_list members) eqn:Hl; [|done].
          apply map_to_list_empty_iff in Hl. by rewrite Hl, lookup_empty in Hurl. }
      all: unfold shorten_url; rewrite Hj, Hg;
        cbn [negb truthy contains_url getitem_url]; rewrite Hurl;
        by destruct (map_to_list members).
    + unfold shorten_url. rewrite Hj, Hg.
      cbn [negb truthy contains_url getitem_url]. rewrite Hurl.
      by destruct (map_to_list members).
Qed.

(** Either [shorten_url] answers with an error and touches neither the
    world nor the random source, or the body is a JSON object whose member
    [url] is a string. *)
Lemma shorten_url_world req now w r :
  (∃ msg status, (status = 400%nat ∨ status = 500%nat)
     ∧ shorten_url req now w r = (Json (ErrorBody msg) status, w, r))
  ∨ (∃ members raw,
       shorten_url req now w r
       = (if fst (validate_url (sanitize_url raw)) then
            match generate_unique_short_code w default_length default_max_attempts r with
            | (inl _, r1) =>
                (Json (ErrorBody "Unable to generate short code. Please try again.") 500,
                 w, r1)
            | (inr code, r1) =>
                (Json (ShortenBody code ("http://localhost:5000/" +:+ code)) 201,
                 snd (create_url_mapping w code (sanitize_url raw) now), r1)
            end
          else (Json (ErrorBody (snd (validate_url (sanitize_url raw)))) 400, w, r))
       ∧ is_json req = true
       ∧ get_json req = inr (JObject members)
       ∧ members !! "url" = Some (JString raw)).
Proof.
  rewrite shorten_url_cases. unfold internal_server_error.
  assert (∀ msg status, (status = 400%nat ∨ status = 500%nat) →
            ∃ msg' status', (status' = 400%nat ∨ status' = 500%nat)
              ∧ (Json (ErrorBody msg) status, w, r)
                = (Json (ErrorBody msg') status', w, r)) as Herr.
  { intros msg status Hst. by exists msg, status. }
  destruct (is_json req); cbn [negb]; [|left; apply Herr; auto].
  destruct (get_json req) as [e|data]; [left; apply Herr; auto|].
  destruct (negb (truthy data)); [left; apply Herr; auto|].
  destruct data as [|b|nz|s|items|members]; try (left; apply Herr; auto; fail).
  - destruct (Str.contains_str "url" s); left; apply Herr; auto.
  - destruct (existsb is_url items); left; apply Herr; auto.
  - destruct (members !! "url") as [[|b|nz|raw|items|members']|] eqn:Hurl;
      try (left; apply Herr; auto; fail).
    right. by exists members, raw.
Qed.

(** X8. The answers of [shorten_url].  400 with its own message for a
    content type that is not JSON.  500 "Internal server error" when the
    body cannot be decoded, when the decoded body is [true] or a number
    other than zero, a string or a list that holds ["url"], or an object
    whose member [url] is no string.  400 "URL is required" for an empty
    or false body ([null], [false], zero, the empty string, list or
    object), for a string or a list without ["url"], and for an object
    without the member.  400 with the reason of the validator for a URL
    that the validator rejects after sanitizing.  In all these cases the
    world and the random source are untouched.  For an accepted URL 500
    with the world untouched when all ten candidates are taken, and else
    201 with a code that was free and now holds the record of the
    sanitized URL with no click.  Without another thread it never answers
    409, and it never redirects. *)
Theorem shorten_url_outcomes req now w r resp w' r' :
  shorten_url req now w r = (resp, w', r') →
  (is_json req = false →
     resp = Json (ErrorBody "Content-Type must be application/json") 400
     ∧ w' = w ∧ r' = r)
  ∧ (∀ e, is_json req = true → get_json req = inl e →
       resp = Json (ErrorBody "Internal server error") 500 ∧ w' = w ∧ r' = r)
  ∧ (∀ data, is_json req = true → get_json req = inr data →
       data = JNull ∨ data = JBool false ∨ data = JNumber false
       ∨ data = JString "" ∨ data = JArray [] ∨ data = JObject ∅ →
       resp = Json (ErrorBody "URL is required") 400 ∧ w' = w ∧ r' = r)
  ∧ (∀ data, is_json req = true → get_json req = inr data →
       data = JBool true ∨ data = JNumber true →
       resp = Json (ErrorBody "Internal server error") 500 ∧ w' = w ∧ r' = r)
  ∧ (∀ s, is_json req = true → get_json req = inr (JString s) → s ≠ "" →
       resp = (if Str.contains_str "url" s
               then Json (ErrorBody "Internal server error") 500
               else Json (ErrorBody "URL is required") 400)
       ∧ (Str.contains_str "url" s = true ↔ ∃ pre post, s = pre +:+ "url" +:+ post)
       ∧ w' = w ∧ r' = r)
  ∧ (∀ items, is_json req = true → get_json req = inr (JArray items) → items ≠ [] →
       (In (JString "url") items →
          resp = Json (ErrorBody "Internal server error") 500)
       ∧ (¬ In (JString "url") items →
            resp = Json (ErrorBody "URL is required") 400)
       ∧ w' = w ∧ r' = r)
  ∧ (∀ members, is_json req = true → get_json req = inr (JObject members) →
       members !! "url" = None →
       resp = Json (ErrorBody "URL is required") 400 ∧ w' = w ∧ r' = r)
  ∧ (∀ members value, is_json req = true → get_json req = inr (JObject members) →
       members !! "url" = Some value → (∀ raw, value ≠ JString raw) →
       resp = Json (ErrorBody "Internal server error") 500 ∧ w' = w ∧ r' = r)
  ∧ (∀ members raw reason, is_json req = true →
       get_json req = inr (JObject members) → members !! "url" = Some (JString raw) →
       validate_url (sanitize_url raw) = (false, reason) →
       resp = Json (ErrorBody reason) 400 ∧ w' = w ∧ r' = r)
  ∧ (∀ members raw, is_json req = true →
       get_json req = inr (JObject members) → members !! "url" = Some (JString raw) →
       validate_url (sanitize_url raw) = (true, "") →
       (resp = Json (ErrorBody "Unable to generate short code. Please try again.") 500
        ∧ w' = w
        ∧ Forall (λ c, url_exists w c = true)
            (candidates default_length default_max_attempts r))
       ∨ (∃ code, resp = Json (ShortenBody code ("http://localhost:5000/" +:+ code)) 201
            ∧ url_exists w code = false
            ∧ record_of w' code = Some (mkUrlData (sanitize_url raw) code 0 now)))
  ∧ (∀ body status, resp = Json body status →
       status = 201%nat ∨ (w' = w ∧ (status = 400%nat ∨ status = 500%nat)))
  ∧ (∀ location status, resp ≠ Redirect location status).
Proof.
  intros H.
  split. { intros Hj. rewrite shorten_url_cases, Hj in H. by injection H as <- <- <-. }
  split. { intros e Hj Hg. rewrite shorten_url_cases, Hj, Hg in H.
           by injection H as <- <- <-. }
  split. { intros data Hj Hg Hd. rewrite shorten_url_cases, Hj, Hg in H.
           assert (truthy data = false) as Ht.
           { by destruct Hd as [->|[->|[->|[->|[->| ->]]]]]. }
           rewrite Ht in H. by injection H as <- <- <-. }
  split. { intros data Hj Hg Hd. rewrite shorten_url_cases, Hj, Hg in H.
           destruct Hd as [-> | ->]; by injection H as <- <- <-. }
  split. { intros s Hj Hg Hs. rewrite shorten_url_cases, Hj, Hg in H. cbn in H.
           apply String.eqb_neq in Hs. rewrite Hs in H. cbn in H.
           split; [|split; [apply contains_str_spec|]];
             destruct (Str.contains_str "url" s); by injection H as <- <- <-. }
  split. { intros items Hj Hg Hi. rewrite shorten_url_cases, Hj, Hg in H.
           destruct items as [|item items]; [done|]. cbn [negb truthy] in H.
           destruct (existsb is_url (item :: items)) eqn:He;
             injection H as <- <- <-; repeat split; try done.
           - intros Hn. destruct Hn. by apply existsb_is_url.
           - intros Hin%existsb_is_url. congruence. }
  assert (∀ members v, members !! "url" = Some v → truthy (JObject members) = true)
    as Htruthy.
  { intros members v Hurl. cbn. destruct (map_to_list members) eqn:Hl; [|done].
    apply map_to_list_empty_iff in Hl. by rewrite Hl, lookup_empty in Hurl. }
  split. { intros members Hj Hg Hurl. rewrite shorten_url_cases, Hj, Hg, Hurl in H.
           cbn [negb] in H. by destruct (negb (truthy _)); injection H as <- <- <-. }
  split. { intros members value Hj Hg Hurl Hv.
           rewrite shorten_url_cases, Hj, Hg, Hurl, (Htruthy _ _ Hurl) in H.
           cbn [negb] in H. destruct value; try by injection H as <- <- <-.
           by destruct (Hv s). }
  split. { intros members raw reason Hj Hg Hurl Hv.
           rewrite shorten_url_cases, Hj, Hg, Hurl, (Htruthy _ _ Hurl), Hv in H.
           by injection H as <- <- <-. }
  split. { intros members raw Hj Hg Hurl Hv.
           rewrite shorten_url_cases, Hj, Hg, Hurl, (Htruthy _ _ Hurl), Hv in H.
           cbn [negb fst] in H.
           destruct (unique_loop_spec w default_length
                       (RuntimeError (unable_to_generate default_max_attempts))
                       default_max_attempts r) as (_ & k & _ & _ & _ & Hres).
           fold (generate_unique_short_code w default_length default_max_attempts r)
             in Hres.
           destruct (generate_unique_short_code w default_length default_max_attempts r)
             as [[e|code] r1] eqn:Hgen; injection H as <- <- <-; cbn [fst] in Hres.
           - left. by destruct Hres as [_ Hall].
           - right. destruct Hres as (_ & _ & Hnew). exists code.
             split; [done|]. split; [done|].
             apply create_record_same. by apply url_exists_false. }
  destruct (shorten_url_world req now w r)
    as [(msg & st & Hst & Hrun)|(members & raw & Hrun & _)];
    rewrite Hrun in H.
  { injection H as <- <- <-. split; [|done]. intros body status [= <- <-]. eauto. }
  destruct (fst (validate_url (sanitize_url raw))).
  2:{ injection H as <- <- <-. split; [|done]. intros body status [= <- <-]. eauto. }
  destruct (generate_unique_short_code w default_length default_max_attempts r)
    as [[e|code] r1]; injection H as <- <- <-; (split; [|done]);
    intros body status [= <- <-]; eauto.
Qed.

(** What one request does to the record of a code: a redirect of the code
    adds a click, a successful shorten may create it, nothing else changes. *)
Lemma handle_records h w r c :
  well_formed w →
  let w' := snd (fst (handle h w r)) in
  well_formed w'
  ∧ match record_of w c with
    | Some d => record_of w' c = Some (if is_redirect_of c h then add_click d else d)
    | None =>
        record_of w' c = None
        ∨ ∃ req now raw,
            h = PostShorten req now
            ∧ fst (fst (handle h w r))
              = Json (ShortenBody c ("http://localhost:5000/" +:+ c)) 201
            ∧ record_of w' c = Some (mkUrlData (sanitize_url raw) c 0 now)
            ∧ validate_url (sanitize_url raw) = (true, "")
            ∧ String.length c = default_length
            ∧ Str.all is_alnum c = true
    end.
Proof.
  intros Hwf. assert (well_formed w ∧ match record_of w c with
                        | Some d => record_of w c = Some d
                        | None => record_of w c = None ∨ False
                        end) as Hsame.
  { split; [done|]. destruct (record_of w c); auto. }
  destruct h as [req now|c0|c0]; cbn [handle].
  - destruct (shorten_url_world req now w r)
      as [(msg & st & Hst & ->)|(members & raw & -> & _)].
    { cbn. destruct Hsame as [? Hs]. split; [done|].
      destruct (record_of w c); [done|]. by left. }
    destruct (fst (validate_url (sanitize_url raw))) eqn:Hv.
    2:{ cbn. destruct Hsame as [? Hs]. split; [done|].
        destruct (record_of w c); [done|]. by left. }
    apply validate_url_accepted in Hv.
    destruct (generate_unique_short_code w default_length default_max_attempts r)
      as [[e|code] r1] eqn:Hgen.
    { cbn. destruct Hsame as [? Hs]. split; [done|].
      destruct (record_of w c); [done|]. by left. }
    apply generated_code_is_new in Hgen as (Hnew & Hlen & Hal).
    cbn [fst snd]. split; [by apply create_well_formed|].
    destruct (decide (c = code)) as [->|Hne].
    + assert (record_of w code = None) as ->.
      { apply record_of_None; [done|]. by apply url_exists_false. }
      right. exists req, now, raw. by rewrite create_record_same.
    + rewrite create_record_other by done. destruct (record_of w c); [done|]. by left.
  - destruct (record_of w c0) as [d0|] eqn:Hd0.
    + rewrite (redirect_to_url_found w c0 d0 Hd0). cbn [fst snd].
      split; [by apply increment_well_formed|]. cbn [is_redirect_of].
      destruct (String.eqb_spec c0 c) as [->|Hne].
      * rewrite Hd0. by apply increment_record_same.
      * rewrite increment_record_other by done.
        destruct (record_of w c); [done|]. by left.
    + apply record_of_None in Hd0; [|done].
      rewrite (redirect_to_url_missing w c0 Hd0). cbn [fst snd is_redirect_of].
      split; [done|]. destruct (record_of w c) as [d|] eqn:Hd; [|by left].
      destruct (String.eqb_spec c0 c) as [->|Hne]; [|done].
      apply record_of_exists in Hd. congruence.
  - cbn. destruct Hsame as [? Hs]. split; [done|].
    destruct (record_of w c); [done|]. by left.
Qed.

Lemma handle_all_well_formed hs : ∀ w r,
  well_formed w → well_formed (fst (handle_all hs w r)).
Proof.
  induction hs as [|h hs IH]; intros w r Hwf; [done|]. cbn [handle_all].
  destruct (handle_records h w r "" Hwf) as [Hwf' _].
  destruct (handle h w r) as [[resp w'] r']. by apply IH.
Qed.

Lemma handle_all_record hs : ∀ w r code d,
  well_formed w → record_of w code = Some d →
  ∃ d', record_of (fst (handle_all hs w r)) code = Some d'
    ∧ clicks d' = clicks d + Z.of_nat (redirects_of code hs)
    ∧ original_url d' = original_url d
    ∧ created_at d' = created_at d
    ∧ short_code d' = short_code d.
Proof.
  induction hs as [|h hs IH]; intros w r code d Hwf Hd.
  - exists d. cbn. split; [done|]. split; [lia|done].
  - cbn [handle_all]. destruct (handle_records h w r code Hwf) as [Hwf' Hrec].
    rewrite Hd in Hrec. destruct (handle h w r) as [[resp w'] r']. cbn [fst snd] in *.
    destruct (IH w' r' code _ Hwf' Hrec) as (d' & Hd' & Hc & Hu & Ht & Hk).
    exists d'. split; [done|]. unfold redirects_of in *. cbn [List.filter].
    destruct (is_redirect_of code h); cbn in *; repeat split; try done; lia.
Qed.

(** X10. After any sequence of requests to the three routes, the
    statistics of a code that was in the store show its URL and creation
    time unchanged and its clicks raised by the number of requests for
    [/<code>] in the sequence, whatever else was requested. *)
Theorem clicks_count_redirects hs w r code d :
  well_formed w →
  record_of w code = Some d →
  get_url_stats code (fst (handle_all hs w r))
  = Json (StatsBody (original_url d)
            (clicks d + Z.of_nat (redirects_of code hs)) (created_at d)) 200.
Proof.
  intros Hwf Hd.
  destruct (handle_all_record hs w r code d Hwf Hd) as (d' & Hd' & Hc & Hu & Ht & _).
  unfold get_url_stats. rewrite get_stats_record, Hd'. cbn. by rewrite Hc, Hu, Ht.
Qed.

Lemma sanitize_url_idempotent s : sanitize_url (sanitize_url s) = sanitize_url s.
Proof.
  destruct (strip_decompose s) as (pre & post & Hs & Hpre & Hpost & Hst & Hend).
  pose proof (strip_exact pre (sanitize_url s) post Hpre Hpost Hst Hend) as [H1 H2].
  by rewrite <- Hs in H2.
Qed.

Lemma store_ok_empty : store_ok empty_world.
Proof. split; [apply well_formed_empty|]. intros code d H. by cbn in H. Qed.

Lemma handle_store_ok h w r : store_ok w → store_ok (snd (fst (handle h w r))).
Proof.
  intros [Hwf Hok]. split; [by apply (handle_records h w r "")|].
  intros c d' Hd'. destruct (handle_records h w r c Hwf) as [_ Hrec].
  destruct (record_of w c) as [d|] eqn:Hd.
  - rewrite Hrec in Hd'. injection Hd' as <-.
    destruct (Hok c d Hd) as (H1 & H2 & H3 & H4 & H5 & H6).
    destruct (is_redirect_of c h); [|done]. repeat split; try done. cbn. lia.
  - destruct Hrec as [Hrec|(req & now & raw & _ & _ & Hrec & Hv & Hlen & Hal)];
      [congruence|].
    rewrite Hrec in Hd'. injection Hd' as <-. repeat split; try done. cbn.
    apply sanitize_url_idempotent.
Qed.

(** X11. In a store built from the empty one by requests to the three
    routes, every record carries its own code, a code of six letters and
    digits, a URL that the validator accepts and that [sanitize_url] leaves
    as it is, and a click count that is not negative.  On such a store
    [redirect_to_url] answers 404 exactly for the codes without a record;
    for a code with a record it answers 302 with the URL of the record,
    or 500 when that URL has a carriage return or a line feed inside,
    which neither the validator nor [sanitize_url] excludes. *)
Theorem reachable_store_ok hs r :
  let w := fst (handle_all hs empty_world r) in
  store_ok w
  ∧ ∀ code,
      fst (redirect_to_url code w)
      = match record_of w code with
        | None => Json (ErrorBody "Short code not found") 404
        | Some d =>
            if single_line (original_url d) then Redirect (original_url d) 302
            else Json (ErrorBody "Internal server error") 500
        end.
Proof.
  cbn zeta.
  assert (∀ w r, store_ok w → store_ok (fst (handle_all hs w r))) as Hinv.
  { induction hs as [|h hs IH]; intros w r0 Hok; [done|]. cbn [handle_all].
    pose proof (handle_store_ok h w r0 Hok) as Hok'.
    destruct (handle h w r0) as [[resp w'] r']. by apply IH. }
  pose proof (Hinv empty_world r store_ok_empty) as Hok. split; [done|].
  intros code. destruct Hok as [Hwf _].
  destruct (record_of (fst (handle_all hs empty_world r)) code) as [d|] eqn:Hd.
  - by rewrite (redirect_to_url_found _ _ _ Hd).
  - apply record_of_None in Hd; [|done]. by rewrite redirect_to_url_missing.
Qed.

(** X12. Two successful calls of [shorten_url], with any requests to the
    three routes between them, never return the same code. *)
Theorem successive_codes_differ req1 now1 w r c1 u1 s1 w1 r1 hs req2 now2 c2 u2 s2 w3 r3 :
  well_formed w →
  shorten_url req1 now1 w r = (Json (ShortenBody c1 u1) s1, w1, r1) →
  shorten_url req2 now2 (fst (handle_all hs w1 r1)) (snd (handle_all hs w1 r1))
  = (Json (ShortenBody c2 u2) s2, w3, r3) →
  c1 ≠ c2.
Proof.
  intros Hwf H1 H2.
  assert (well_formed w1 ∧ ∃ d1, record_of w1 c1 = Some d1) as [Hwf1 [d1 Hd1]].
  { pose proof (handle_records (PostShorten req1 now1) w r c1 Hwf) as [Hwf1 _].
    cbn [handle] in Hwf1. rewrite H1 in Hwf1. split; [done|].
    destruct (shorten_url_world req1 now1 w r)
      as [(msg & st & _ & Hrun)|(members & raw & Hrun & _)];
      rewrite Hrun in H1; [discriminate|].
    destruct (fst (validate_url (sanitize_url raw))); [|discriminate].
    destruct (generate_unique_short_code w default_length default_max_attempts r)
      as [[e|code] r0] eqn:Hgen; [discriminate|].
    injection H1 as -> _ _ <- _.
    apply generated_code_is_new in Hgen as (Hnew & _).
    eexists. by apply create_record_same. }
  destruct (handle_all_record hs w1 r1 c1 d1 Hwf1 Hd1) as (d' & Hd' & _).
  apply record_of_exists in Hd'.
  destruct (shorten_url_world req2 now2 (fst (handle_all hs w1 r1))
              (snd (handle_all hs w1 r1)))
    as [(msg & st & _ & Hrun)|(members & raw & Hrun & _)];
    rewrite Hrun in H2; [discriminate|].
  destruct (fst (validate_url (sanitize_url raw))); [|discriminate].
  destruct (generate_unique_short_code _ default_length default_max_attempts _)
    as [[e|code] r0] eqn:Hgen; [discriminate|].
  injection H2 as -> _ _ _ _.
  apply generated_code_is_new in Hgen as (Hnew%url_exists_false & _).
  intros ->. congruence.
Qed.

(** X9. [shorten_url] keeps the store well-formed and every record it
    holds as it is, and a code that is new in the store afterwards is the
    code of its 201 answer. *)
Theorem shorten_url_frame req now w r resp w' r' :
  well_formed w →
  shorten_url req now w r = (resp, w', r') →
  well_formed w'
  ∧ (∀ c d, record_of w c = Some d → record_of w' c = Some d)
  ∧ (∀ c, url_exists w c = false → url_exists w' c = true →
       ∃ short_url, resp = Json (ShortenBody c short_url) 201).
Proof.
  intros Hwf Hrun. split; [|split].
  - pose proof (handle_records (PostShorten req now) w r "" Hwf) as [H _].
    cbn [handle] in H. by rewrite Hrun in H.
  - intros c d Hd.
    pose proof (handle_records (PostShorten req now) w r c Hwf) as [_ H].
    cbn [handle] in H. by rewrite Hrun, Hd in H.
  - intros c Hold Hnew.
    destruct (shorten_url_world req now w r)
      as [(msg & st & _ & Heq)|(members & raw & Heq & _)];
      rewrite Heq in Hrun; [injection Hrun as <- <- <-; congruence|].
    destruct (fst (validate_url (sanitize_url raw)));
      [|injection Hrun as <- <- <-; congruence].
    destruct (generate_unique_short_code w default_length default_max_attempts r)
      as [[e|code] r1] eqn:Hgen; injection Hrun as <- <- <-; [congruence|].
    apply generated_code_is_new in Hgen as (Hfree & _).
    destruct (decide (c = code)) as [->|Hne]; [eauto|].
    apply url_exists_false in Hold. apply url_exists_true in Hnew.
    rewrite create_fresh in Hnew by done. cbn in Hnew.
    rewrite lookup_insert_ne, Hold in Hnew by done. by destruct Hnew.
Qed.

Lemma readers_agree_witness :
  well_formed demo_world
  ∧ get_url_mapping demo_world "abc123" = Some 1%positive
  ∧ get_url_stats "abc123" demo_world = Json (StatsBody demo_url 0 demo_now) 200.
Proof.
  split; [exact demo_world_well_formed|]. split; [reflexivity|].
  destruct (readers_agree demo_world "abc123" demo_world_well_formed) as (_ & _ & _ & H).
  destruct (H 1%positive eq_refl) as (d & Hd & _ & _ & Hstats).
  injection Hd as <-. exact Hstats.
Defined.

Lemma redirect_to_url_spec_witness :
  well_formed demo_world
  ∧ ∃ w', redirect_to_url "abc123" demo_world = (Redirect demo_url 302, w')
      ∧ clicks <$> record_of w' "abc123" = Some 1.
Proof.
  split; [exact demo_world_well_formed|].
  pose proof (redirect_to_url_spec demo_world "abc123" demo_world_well_formed) as H.
  assert (record_of demo_world "abc123" = Some (mkUrlData demo_url "abc123" 0 demo_now))
    as Hr by reflexivity.
  rewrite Hr in H. destruct H as (resp & w' & H1 & H2 & _ & H3 & _).
  exists w'. rewrite H1, (H2 eq_refl), H3. split; reflexivity.
Defined.

Lemma shorten_url_outcomes_witness :
  shorten_url (mkRequest false (inl BadRequest)) demo_now demo_world demo_random
  = (Json (ErrorBody "Content-Type must be application/json") 400, demo_world, demo_random)
  ∧ fst (fst (shorten_url (post_url " ftp://example.com ")
                demo_now demo_world demo_random))
    = Json (ErrorBody "URL must start with http:// or https://") 400
  ∧ fst (fst (shorten_url (mkRequest true (inr (JObject {[ "url" := JNumber true ]})))
                demo_now demo_world demo_random))
    = Json (ErrorBody "Internal server error") 500.
Proof.
  split; [reflexivity|].
  assert (shorten_url (post_url " ftp://example.com ") demo_now demo_world demo_random
          = (Json (ErrorBody "URL must start with http:// or https://") 400,
             demo_world, demo_random)) as Hrun by by vm_compute.
  assert (shorten_url (mkRequest true (inr (JObject {[ "url" := JNumber true ]})))
            demo_now demo_world demo_random
          = (Json (ErrorBody "Internal server error") 500, demo_world, demo_random))
    as Hrun' by by vm_compute.
  destruct (shorten_url_outcomes _ _ _ _ _ _ _ Hrun)
    as (_ & _ & _ & _ & _ & _ & _ & _ & H & _).
  destruct (shorten_url_outcomes _ _ _ _ _ _ _ Hrun')
    as (_ & _ & _ & _ & _ & _ & _ & H' & _).
  rewrite Hrun, Hrun'. split.
  - exact (proj1 (H {[ "url" := JString " ftp://example.com " ]} " ftp://example.com "
                    "URL must start with http:// or https://"
                    eq_refl eq_refl eq_refl eq_refl)).
  - refine (proj1 (H' {[ "url" := JNumber true ]} (JNumber true)
                      eq_refl eq_refl eq_refl _)).
    intros raw. discriminate.
Defined.

Lemma shorten_url_frame_witness :
  let res := shorten_url (post_url demo_url) demo_now demo_world demo_random in
  well_formed demo_world
  ∧ fst (fst res) = Json (ShortenBody "dkryFM" "http://localhost:5000/dkryFM") 201
  ∧ record_of (snd (fst res)) "abc123" = Some (mkUrlData demo_url "abc123" 0 demo_now).
Proof.
  intros res. split; [exact demo_world_well_formed|]. split; [reflexivity|].
  assert (shorten_url (post_url demo_url) demo_now
            demo_world demo_random = (fst (fst res), snd (fst res), snd res)) as Hrun
    by (subst res; by destruct (shorten_url _ _ _ _) as [[? ?] ?]).
  destruct (shorten_url_frame _ _ _ _ _ _ _ demo_world_well_formed Hrun) as (_ & H & _).
  exact (H "abc123" _ eq_refl).
Defined.

Lemma clicks_count_redirects_witness :
  well_formed demo_world
  ∧ get_url_stats "abc123"
      (fst (handle_all [GetShortCode "abc123";
                        PostShorten (post_url demo_url) demo_now;
                        GetShortCode "missing"; GetShortCode "abc123";
                        GetStatsOf "abc123"] demo_world demo_random))
    = Json (StatsBody demo_url 2 demo_now) 200.
Proof.
  split; [exact demo_world_well_formed|].
  exact (clicks_count_redirects
           [GetShortCode "abc123";
            PostShorten (post_url demo_url) demo_now;
            GetShortCode "missing"; GetShortCode "abc123"; GetStatsOf "abc123"]
           demo_world demo_random "abc123" (mkUrlData demo_url "abc123" 0 demo_now)
           demo_world_well_formed eq_refl).
Defined.

Lemma successive_codes_differ_witness :
  let req1 := post_url "https://www.example1.com" in
  let req2 := post_url "https://www.example2.com" in
  let res1 := shorten_url req1 demo_now empty_world demo_random in
  let mid := handle_all [GetShortCode "dkryFM"] (snd (fst res1)) (snd res1) in
  let res2 := shorten_url req2 demo_now (fst mid) (snd mid) in
  fst (fst res1) = Json (ShortenBody "dkryFM" "http://localhost:5000/dkryFM") 201
  ∧ fst (fst res2) = Json (ShortenBody "T07els" "http://localhost:5000/T07els") 201
  ∧ "dkryFM" ≠ "T07els".
Proof.
  intros req1 req2 res1 mid res2.
  assert (res1 = (Json (ShortenBody "dkryFM" "http://localhost:5000/dkryFM") 201,
                  snd (fst res1), snd res1)) as H1 by by vm_compute.
  assert (res2 = (Json (ShortenBody "T07els" "http://localhost:5000/T07els") 201,
                  snd (fst res2), snd res2)) as H2 by by vm_compute.
  split; [by rewrite H1|]. split; [by rewrite H2|].
  exact (successive_codes_differ req1 demo_now empty_world demo_random
           "dkryFM" "http://localhost:5000/dkryFM" 201 (snd (fst res1)) (snd res1)
           [GetShortCode "dkryFM"] req2 demo_now
           "T07els" "http://localhost:5000/T07els" 201 (snd (fst res2)) (snd res2)
           well_formed_empty H1 H2).
Defined.
End ServiceFacts.

Section ThreadMore.
Local Open Scope list_scope.
Implicit Types (w : World) (o : Op) (t : Thread) (s : System) (hist order : list nat).

(** X13. In every state that threads calling the store can reach, at most
    one thread is inside a [with self._lock] block, and the lock is held
    exactly when some thread is. *)
Theorem lock_mutual_exclusion w0 calls sched s :
  well_formed w0 →
  run sched (init w0 calls) = Some s →
  (∀ i j ti tj, threads s !! i = Some ti → threads s !! j = Some tj →
     critical ti = true → critical tj = true → i = j)
  ∧ (locked s = true ↔ ∃ i t, threads s !! i = Some t ∧ critical t = true).
Proof.
  intros Hwf Hrun.
  destruct (run_invariant w0 calls sched [] _ _ Hwf (init_invariant w0 calls) Hrun)
    as [hist [Hnd Hrange Hfree Hheld Hth Hlen]].
  split.
  - intros i j ti tj Hi Hj Hci Hcj.
    apply Hth, thread_ok_critical in Hi as (_ & h & o & -> & _); [|done].
    apply Hth, thread_ok_critical in Hj as (_ & h' & o' & Heq & _); [|done].
    by apply app_inj_tail in Heq as [_ ->].
  - split; [done|]. intros (i & t & Hi & Hc).
    by apply Hth, thread_ok_critical in Hi as (? & _).
Qed.

Lemma call_raises w o e :
  fst (call w o) = Raised e →
  ∃ c u now, o = Create c u now ∧ e = ValueError (already_exists c)
    ∧ url_exists w c = true.
Proof.
  destruct o as [c u now|c|c|c|c]; cbn; try done.
  - destruct (_urls w !! c) as [l|] eqn:Hc.
    + rewrite create_duplicate by eauto. cbn. intros [= <-].
      exists c, u, now. repeat split. apply url_exists_true. eauto.
    + by rewrite create_fresh.
  - by destruct (increment_clicks w c).
Qed.

(** X14. The only exception a thread ever leaves a store method with is
    the duplicate-code [ValueError] of its own [create_url_mapping]; the
    lookups under the lock never raise [KeyError]. *)
Theorem threads_raise_only_duplicate w0 calls sched s i r e :
  well_formed w0 →
  run sched (init w0 calls) = Some s →
  threads s !! i = Some (Exit r) ∨ threads s !! i = Some (Done r) →
  r = Raised e →
  ∃ c u now, calls !! i = Some (Create c u now) ∧ e = ValueError (already_exists c).
Proof.
  intros Hwf Hrun Hi ->.
  destruct (run_invariant w0 calls sched [] _ _ Hwf (init_invariant w0 calls) Hrun)
    as [hist [Hnd Hrange Hfree Hheld Hth Hlen]].
  destruct Hi as [Hi|Hi]; apply Hth in Hi; cbn in Hi.
  - destruct Hi as (_ & h & o & _ & Ho & Hcall).
    destruct (call_raises (seq_world w0 calls h) o e) as (c & u & now & -> & -> & _);
      [by rewrite Hcall|]. eauto.
  - destruct Hi as (h1 & h2 & o & _ & Ho & Hr).
    destruct (call_raises (seq_world w0 calls h1) o e) as (c & u & now & -> & -> & _);
      [done|]. eauto.
Qed.

Lemma call_record w o code d :
  well_formed w → record_of w code = Some d →
  record_of (snd (call w o)) code
  = Some (if is_increment_of code o then add_click d else d).
Proof.
  intros Hwf Hd. destruct o as [c u now|c|c|c|c]; cbn [call snd is_increment_of];
    try done.
  - destruct (decide (c = code)) as [->|Hne].
    + rewrite create_duplicate; [done|]. apply url_exists_true.
      by eapply record_of_exists.
    + pose proof (create_record_other w c u now code Hwf) as Hrec.
      destruct (create_url_mapping w c u now) as [[e|l] w']; cbn in *;
        rewrite Hrec; auto.
  - destruct (String.eqb_spec c code) as [->|Hne].
    + pose proof (increment_record_same w code d Hd) as Hrec.
      by destruct (increment_clicks w code).
    + pose proof (increment_record_other w c code Hwf) as Hrec.
      destruct (increment_clicks w c) as [b w']; cbn in *. rewrite Hrec; auto.
Qed.

(** The calls of [increment_clicks] on [code] among those with an index in
    [order]. *)
Lemma seq_world_record calls code order : ∀ w d,
  well_formed w → record_of w code = Some d →
  ∃ d', record_of (seq_world w calls order) code = Some d'
    ∧ clicks d' = clicks d + Z.of_nat (length (List.filter
        (λ i, match calls !! i with
              | Some o => is_increment_of code o
              | None => false
              end) order))
    ∧ original_url d' = original_url d
    ∧ created_at d' = created_at d.
Proof.
  induction order as [|i order IH]; intros w d Hwf Hd.
  - exists d. cbn. split; [done|]. split; [lia|done].
  - cbn [seq_world foldl List.filter]. unfold seq_step at 2.
    destruct (calls !! i) as [o|] eqn:Ho.
    + pose proof (call_record w o code d Hwf Hd) as Hrec.
      pose proof (call_well_formed w o Hwf) as Hwf'.
      destruct (IH _ _ Hwf' Hrec) as (d' & Hd' & Hc & Hu & Ht).
      exists d'. split; [done|].
      destruct (is_increment_of code o); cbn in *; repeat split; try done; lia.
    + destruct (IH _ _ Hwf Hd) as (d' & Hd' & Hc & Hu & Ht). eauto.
Qed.

Lemma filter_length_permutation {A} (f : A → bool) (l l' : list A) :
  l ≡ₚ l' → length (List.filter f l) = length (List.filter f l').
Proof.
  induction 1 as [|x l l' _ IH|x y l|l1 l2 l3 _ IH1 _ IH2]; cbn.
  - done.
  - destruct (f x); cbn; by rewrite IH.
  - by destruct (f x), (f y).
  - by rewrite IH1.
Qed.

Lemma filter_length_indices (f : Op → bool) (calls : list Op) :
  length (List.filter (λ i, match calls !! i with
                            | Some o => f o
                            | None => false
                            end) (seq 0 (length calls)))
  = length (List.filter f calls).
Proof.
  induction calls as [|o calls IH] using rev_ind; [done|].
  rewrite length_app, Nat.add_1_r, seq_S, !List.filter_app, !length_app. cbn [seq Nat.add].
  f_equal.
  - rewrite <- IH. f_equal. apply List.filter_ext_in.
    intros i [_ Hi]%in_seq. by rewrite lookup_app_l by (cbn in Hi; lia).
  - cbn [List.filter]. rewrite list_lookup_middle by done. by destruct (f o).
Qed.

(** X15. Whatever calls of the five store methods run concurrently, once
    all have returned the record of a code that was in the store has its URL
    and creation time unchanged and its clicks raised by exactly the number
    of [increment_clicks] calls on that code. *)
Theorem concurrent_clicks_count w0 calls sched s code d :
  well_formed w0 →
  record_of w0 code = Some d →
  run sched (init w0 calls) = Some s →
  all_done s →
  ∃ d', record_of (world s) code = Some d'
    ∧ clicks d' = clicks d + Z.of_nat (increments_of code calls)
    ∧ original_url d' = original_url d
    ∧ created_at d' = created_at d.
Proof.
  intros Hwf Hd Hrun Hall.
  destruct (run_invariant w0 calls sched [] _ _ Hwf (init_invariant w0 calls) Hrun)
    as [hist Hinv].
  destruct (invariant_all_done _ _ _ _ Hinv Hall) as (Hperm & _ & -> & _).
  destruct (seq_world_record calls code hist w0 d Hwf Hd) as (d' & Hd' & Hc & Hu & Ht).
  exists d'. split; [done|]. split; [|done].
  rewrite Hc. unfold increments_of.
  by rewrite (filter_length_permutation _ _ _ Hperm), filter_length_indices.
Qed.

Lemma call_keeps_codes w o c :
  url_exists w c = true → url_exists (snd (call w o)) c = true.
Proof.
  rewrite !url_exists_true. intros Hc.
  destruct o as [c0 u now|c0|c0|c0|c0]; cbn [call snd]; try done.
  - destruct (_urls w !! c0) as [l|] eqn:Hc0.
    + by rewrite create_duplicate by eauto.
    + rewrite create_fresh by done. cbn. rewrite lookup_insert.
      by case_decide.
  - unfold increment_clicks. by destruct (_urls w !! c0).
Qed.

Lemma seq_world_keeps_codes calls c h : ∀ w,
  url_exists w c = true → url_exists (seq_world w calls h) c = true.
Proof.
  induction h as [|i h IH]; intros w Hc; [done|]. cbn. apply IH.
  unfold seq_step. destruct (calls !! i); [|done]. by apply call_keeps_codes.
Qed.

Lemma is_create_of_eq code o :
  is_create_of code o = true → ∃ u now, o = Create code u now.
Proof.
  destruct o as [c u now|c|c|c|c]; cbn; try done.
  intros ->%String.eqb_eq. eauto.
Qed.

(** X16. Of any number of concurrent calls of [create_url_mapping] with one
    code that was free, exactly one returns a record, all others raise the
    duplicate-code [ValueError], and the store then holds the record of the
    one that returned. *)
Theorem concurrent_creates_one_winner w0 calls sched s code :
  well_formed w0 →
  url_exists w0 code = false →
  calls ≠ [] →
  Forall (λ o, is_create_of code o = true) calls →
  run sched (init w0 calls) = Some s →
  all_done s →
  ∃ i l u now,
    calls !! i = Some (Create code u now)
    ∧ result_of s i = Some (ReturnedDict l)
    ∧ (∀ j, j ≠ i → (j < length calls)%nat →
         result_of s j = Some (Raised (ValueError (already_exists code))))
    ∧ record_of (world s) code = Some (mkUrlData u code 0 now).
Proof.
  intros Hwf Hfree Hne Hcreates Hrun Hall.
  destruct (run_invariant w0 calls sched [] _ _ Hwf (init_invariant w0 calls) Hrun)
    as [hist Hinv].
  destruct (invariant_all_done _ _ _ _ Hinv Hall) as (Hperm & _ & Hw & Hres).
  pose proof (inv_nodup _ _ _ _ Hinv) as Hnd.
  pose proof (inv_length _ _ _ _ Hinv) as Hlen.
  assert (∀ j, (j < length calls)%nat →
            ∃ r k u now, result_of s j = Some r ∧ hist !! k = Some j
              ∧ calls !! j = Some (Create code u now)
              ∧ r = fst (call (seq_world w0 calls (take k hist)) (Create code u now)))
    as Hdone.
  { intros j Hj. pose proof Hj as Hj'. rewrite <- Hlen in Hj.
    apply lookup_lt_is_Some in Hj as [t Ht].
    destruct (all_done_lookup _ _ _ Hall Ht) as [r ->].
    assert (result_of s j = Some r) as Hr by (unfold result_of; by rewrite Ht).
    destruct (Hres _ _ Hr) as (k & Hk & Hseq).
    apply lookup_lt_is_Some in Hj' as [o Ho].
    destruct (is_create_of_eq code o) as (u & now & ->).
    { rewrite Forall_forall in Hcreates. apply Hcreates.
      by eapply list_elem_of_lookup_2. }
    exists r, k, u, now. unfold seq_result in Hseq. rewrite Hk, Ho in Hseq.
    by injection Hseq as <-. }
  destruct hist as [|i0 rest].
  { apply Permutation_length in Hperm. rewrite length_seq in Hperm.
    destruct calls; [done|]. cbn in Hperm. lia. }
  assert (i0 < length calls)%nat as Hi0.
  { assert (i0 ∈ seq 0 (length calls)) as Hin by (rewrite <- Hperm; set_solver).
    apply elem_of_seq in Hin. lia. }
  destruct (Hdone i0 Hi0) as (r0 & k0 & u0 & now0 & Hr0 & Hk0 & Ho0 & ->).
  assert (k0 = 0%nat) as -> by (by eapply NoDup_lookup).
  destruct (call_create_new w0 code u0 now0) as (l & w1 & Hcall & Hin1 & Hrec1);
    [by apply url_exists_false|].
  assert (seq_step calls w0 i0 = w1) as Hstep.
  { unfold seq_step. by rewrite Ho0, Hcall. }
  exists i0, l, u0, now0. split; [done|]. split; [|split].
  - rewrite Hr0. cbn [take seq_world foldl]. by rewrite Hcall.
  - intros j Hj Hjn.
    destruct (Hdone j Hjn) as (r & k & u & now & Hr & Hk & Ho & ->).
    destruct k as [|k]; [cbn in Hk; congruence|].
    rewrite Hr. cbn [take seq_world foldl]. rewrite Hstep.
    rewrite call_create_duplicate; [done|].
    apply url_exists_true. apply seq_world_keeps_codes. by apply url_exists_true.
  - rewrite Hw.
    change (seq_world w0 calls (i0 :: rest))
      with (seq_world (seq_step calls w0 i0) calls rest).
    rewrite Hstep.
    assert (well_formed w1) as Hwf1.
    { pose proof (call_well_formed w0 (Create code u0 now0) Hwf) as H.
      by rewrite Hcall in H. }
    destruct (seq_world_record calls code rest w1 _ Hwf1 Hrec1)
      as (d' & Hd' & Hc & Hu & Ht).
    assert (length (List.filter
              (λ i, match calls !! i with
                    | Some o => is_increment_of code o
                    | None => false
                    end) rest) = 0%nat) as Hzero.
    { clear -Hcreates. induction rest as [|i rest IH]; [done|]. cbn.
      destruct (calls !! i) as [o|] eqn:Ho; [|done].
      rewrite Forall_forall in Hcreates.
      destruct (is_create_of_eq code o) as (u & now & ->);
        [apply Hcreates; by eapply list_elem_of_lookup_2|]. done. }
    rewrite Hzero in Hc. cbn in Hc, Hu, Ht.
    assert (short_code d' = code) as Hk.
    { apply record_of_Some in Hd' as (l' & Hl' & Hd').
      pose proof (seq_world_well_formed calls rest w1 Hwf1) as Hwf'.
      destruct (Hwf' _ _ Hl') as (d'' & Hd'' & ?). congruence. }
    rewrite Hd'. f_equal. destruct d'; cbn in *; subst; try done; f_equal; lia.
Qed.

Lemma lock_mutual_exclusion_witness :
  let calls := replicate 2 (IncrementClicks "abc123") in
  well_formed demo_world
  ∧ ∃ s, run [0; 0; 0]%nat (init demo_world calls) = Some s
      ∧ threads s !! 0%nat = Some (IncStore "abc123" 1%positive 0)
      ∧ locked s = true.
Proof.
  intros calls. split; [exact demo_world_well_formed|].
  pose (s := default (init demo_world calls) (run [0; 0; 0]%nat (init demo_world calls))).
  assert (run [0; 0; 0]%nat (init demo_world calls) = Some s) as Hrun by by vm_compute.
  assert (threads s !! 0%nat = Some (IncStore "abc123" 1%positive 0)) as Ht
    by by vm_compute.
  destruct (lock_mutual_exclusion demo_world calls [0; 0; 0]%nat s
              demo_world_well_formed Hrun) as [_ [_ H]].
  exists s. split; [exact Hrun|]. split; [exact Ht|].
  apply H. exists 0%nat, (IncStore "abc123" 1%positive 0). split; [exact Ht|reflexivity].
Defined.

Lemma threads_raise_only_duplicate_witness :
  let calls := [Create "abc123" "http://first.example" demo_now;
                Create "abc123" "http://second.example" demo_now] in
  let sched := [1; 1; 1; 1; 1; 1; 0; 0; 0]%nat in
  well_formed empty_world
  ∧ ∃ s e, run sched (init empty_world calls) = Some s
      ∧ threads s !! 0%nat = Some (Done (Raised e))
      ∧ e = ValueError "Short code 'abc123' already exists".
Proof.
  intros calls sched. split; [exact well_formed_empty|].
  pose (s := default (init empty_world calls) (run sched (init empty_world calls))).
  assert (run sched (init empty_world calls) = Some s) as Hrun by by vm_compute.
  pose (e := ValueError "Short code 'abc123' already exists").
  assert (threads s !! 0%nat = Some (Done (Raised e))) as Ht by by vm_compute.
  destruct (threads_raise_only_duplicate empty_world calls sched s 0 (Raised e) e
              well_formed_empty Hrun (or_intror Ht) eq_refl)
    as (c & u & now & Hc & He).
  exists s, e. split; [exact Hrun|]. split; [exact Ht|].
  injection Hc as <- _ _. exact He.
Defined.

Lemma concurrent_clicks_count_witness :
  let calls := [IncrementClicks "abc123"; GetStats "abc123"; IncrementClicks "abc123";
                Create "abc123" "http://other.example" demo_now;
                IncrementClicks "missing"] in
  let sched := [2; 2; 2; 2; 2; 1; 1; 1; 0; 0; 0; 0; 0; 4; 4; 4; 3; 3; 3]%nat in
  well_formed demo_world
  ∧ ∃ s, run sched (init demo_world calls) = Some s
      ∧ all_done s
      ∧ clicks <$> record_of (world s) "abc123" = Some 2.
Proof.
  intros calls sched. split; [exact demo_world_well_formed|].
  pose (s := default (init demo_world calls) (run sched (init demo_world calls))).
  assert (run sched (init demo_world calls) = Some s) as Hrun by by vm_compute.
  assert (all_done s) as Hall by by vm_compute.
  destruct (concurrent_clicks_count demo_world calls sched s "abc123"
              (mkUrlData demo_url "abc123" 0 demo_now)
              demo_world_well_formed eq_refl Hrun Hall) as (d' & Hd' & Hc & _).
  exists s. split; [exact Hrun|]. split; [exact Hall|].
  rewrite Hd'. cbn [fmap option_fmap option_map]. rewrite Hc. reflexivity.
Defined.

Lemma concurrent_creates_one_winner_witness :
  let calls := [Create "abc123" "http://first.example" demo_now;
                Create "abc123" "http://second.example" demo_now;
                Create "abc123" "http://third.example" demo_now] in
  let sched := [1; 1; 1; 1; 1; 1; 2; 2; 2; 0; 0; 0]%nat in
  well_formed empty_world
  ∧ ∃ s, run sched (init empty_world calls) = Some s
      ∧ all_done s
      ∧ ∃ i l u now, calls !! i = Some (Create "abc123" u now)
          ∧ result_of s i = Some (ReturnedDict l)
          ∧ record_of (world s) "abc123" = Some (mkUrlData u "abc123" 0 now).
Proof.
  intros calls sched. split; [exact well_formed_empty|].
  pose (s := default (init empty_world calls) (run sched (init empty_world calls))).
  assert (run sched (init empty_world calls) = Some s) as Hrun by by vm_compute.
  assert (all_done s) as Hall by by vm_compute.
  assert (Forall (λ o, is_create_of "abc123" o = true) calls) as Hcreates
    by (repeat constructor).
  assert (calls ≠ []) as Hne by done.
  destruct (concurrent_creates_one_winner empty_world calls sched s "abc123"
              well_formed_empty eq_refl Hne Hcreates Hrun Hall)
    as (i & l & u & now & H1 & H2 & _ & H3).
  exists s. split; [exact Hrun|]. split; [exact Hall|].
  exists i, l, u, now. split; [exact H1|]. split; [exact H2|exact H3].
Defined.
End ThreadMore.
